(** * aconfig: a layered configuration loader

    A shallow embedding of [aconfig.go] (package [aconfig]) and the
    properties of its field catalog, its setters and its loading stages.

    Conventions of the embedding:
    - a Go [string] is a Rocq [string] (a sequence of bytes);
    - a Go [error] result is an [option error], [None] being [nil];
    - a Go panic is an explicit [Panic] outcome;
    - the destination record lives in a store, a finite map from field
      locations (paths of field indices) to the values held there;
    - the process state the loader reads (files, environment variables,
      parsed flags) is an explicit [World]. *)

From Stdlib Require Import ZArith Ascii String List Bool Lia.
From stdpp Require Import base option list gmap strings.

Local Open Scope string_scope.
Local Open Scope Z_scope.

(** ** Bytes and strings *)

Module Bytes.

Definition val (c : ascii) : Z := Z.of_N (N_of_ascii c).

Definition of_val (z : Z) : ascii := ascii_of_N (Z.to_N z).

Definition between (lo hi c : ascii) : bool :=
  (val lo <=? val c) && (val c <=? val hi).

Definition isDigit (c : ascii) : bool := between "0" "9" c.
Definition isLower (c : ascii) : bool := between "a" "z" c.
Definition isUpper (c : ascii) : bool := between "A" "Z" c.

(** [utf8.RuneSelf] is 0x80: bytes below it are single-byte runes. *)
Definition RuneSelf : Z := 128.

Definition toUpper (c : ascii) : ascii :=
  if isLower c then of_val (val c - 32) else c.

Definition toLower (c : ascii) : ascii :=
  if isUpper c then of_val (val c + 32) else c.

Fixpoint map (f : ascii -> ascii) (s : string) : string :=
  match s with
  | EmptyString => EmptyString
  | String c s' => String (f c) (map f s')
  end.

Fixpoint all (p : ascii -> bool) (s : string) : bool :=
  match s with
  | EmptyString => true
  | String c s' => p c && all p s'
  end.

Definition isASCII (s : string) : bool := all (fun c => val c <? RuneSelf) s.

End Bytes.

(** ** Fixed-width integers

    The value a conversion to a [bits]-wide integer type keeps. *)

Module Wrap.

Definition uint (bits z : Z) : Z := z mod 2 ^ bits.

Definition int (bits z : Z) : Z :=
  let m := z mod 2 ^ bits in
  if m <? 2 ^ (bits - 1) then m else m - 2 ^ bits.

End Wrap.

(** ** Errors and panics *)

(** [strconv.ErrSyntax] and [strconv.ErrRange]. *)
Inductive numErr := ErrSyntax | ErrRange.

(** The reasons [time.ParseDuration] gives. *)
Inductive durErr :=
| InvalidDuration
| MissingUnit
| UnknownUnit (u : string).

Inductive error :=
| NumError (Func Num : string) (Err : numErr)   (* *strconv.NumError *)
| DurationError (why : durErr) (orig : string)  (* errors.New("time: ...") *)
| PathError (Op Path Err : string)              (* *os.PathError *)
| DecodeError (msg : string)                    (* an error of a file decoder *)
| UnsupportedFormat (ext : string)              (* "aconfig: file format '%q' isn't supported" *)
| FileParsingError (inner : error).             (* "aconfig: file parsing error: %s" *)

(** A function returning [(T, error)]. *)
Inductive ret (T : Type) :=
| Val (v : T)
| Err (e : error).
Arguments Val {T} v.
Arguments Err {T} e.

(** ** package strconv *)

Module strconv.

Definition maxUint64 : Z := 2 ^ 64 - 1.

(** [IntSize]: the size in bits of [int] and [uint] (64-bit platforms). *)
Definition IntSize : Z := 64.

Definition ParseBool (str : string) : ret bool :=
  if String.eqb str "1" || String.eqb str "t" || String.eqb str "T"
     || String.eqb str "true" || String.eqb str "TRUE" || String.eqb str "True"
  then Val true
  else if String.eqb str "0" || String.eqb str "f" || String.eqb str "F"
     || String.eqb str "false" || String.eqb str "FALSE" || String.eqb str "False"
  then Val false
  else Err (NumError "ParseBool" str ErrSyntax).

(** The digit a byte stands for, in any base up to 36. *)
Definition digitVal (c : ascii) : option Z :=
  if Bytes.isDigit c then Some (Bytes.val c - Bytes.val "0")
  else if Bytes.isLower (Bytes.toLower c)
       then Some (Bytes.val (Bytes.toLower c) - Bytes.val "a" + 10)
       else None.

(** The digit loop of [ParseUint]; [n] is a [uint64], its additions wrap. *)
Fixpoint parseDigits (s : string) (base cutoff maxVal n : Z) : numErr + Z :=
  match s with
  | EmptyString => inr n
  | String c s' =>
      match digitVal c with
      | None => inl ErrSyntax
      | Some d =>
          if base <=? d then inl ErrSyntax
          else if cutoff <=? n then inl ErrRange
          else
            let n := (n * base) mod 2 ^ 64 in
            let n1 := (n + d) mod 2 ^ 64 in
            if (n1 <? n) || (maxVal <? n1) then inl ErrRange
            else parseDigits s' base cutoff maxVal n1
      end
  end.

(** [ParseUint(s, base, bitSize)] for an explicit base in 2..36 (the
    loader always passes 10, so base prefixes and underscores, which
    only base 0 accepts, do not arise). *)
Definition parseUint (s : string) (base bitSize : Z) : numErr + Z :=
  if String.eqb s "" then inl ErrSyntax
  else
    let bitSize := if bitSize =? 0 then IntSize else bitSize in
    let cutoff := maxUint64 / base + 1 in
    let maxVal := 2 ^ bitSize - 1 in
    parseDigits s base cutoff maxVal 0.

Definition ParseUint (s : string) (base bitSize : Z) : ret Z :=
  match parseUint s base bitSize with
  | inr n => Val n
  | inl why => Err (NumError "ParseUint" s why)
  end.

Definition ParseInt (s0 : string) (base bitSize : Z) : ret Z :=
  match s0 with
  | EmptyString => Err (NumError "ParseInt" s0 ErrSyntax)
  | String c rest =>
      let neg := Ascii.eqb c "-" in
      let s := if Ascii.eqb c "+" || Ascii.eqb c "-" then rest else s0 in
      match parseUint s base bitSize with
      | inl ErrSyntax => Err (NumError "ParseInt" s0 ErrSyntax)
      | inl ErrRange => Err (NumError "ParseInt" s0 ErrRange)
      | inr un =>
          let bitSize := if bitSize =? 0 then IntSize else bitSize in
          let cutoff := 2 ^ (bitSize - 1) in
          if negb neg && (cutoff <=? un) then Err (NumError "ParseInt" s0 ErrRange)
          else if neg && (cutoff <? un) then Err (NumError "ParseInt" s0 ErrRange)
          else Val (if neg then - un else un)
      end
  end.

End strconv.

(** ** package reflect

    Types, the values of a destination record, and the part of
    [reflect.Value] the loader uses. *)

Module reflect.

Inductive Kind :=
| Invalid | Bool
| Int | Int8 | Int16 | Int32 | Int64
| Uint | Uint8 | Uint16 | Uint32 | Uint64 | Uintptr
| Float32 | Float64 | Complex64 | Complex128
| Array | Chan | Func | Interface | Map | Ptr | Slice
| String | Struct | UnsafePointer.

#[global] Instance Kind_eq_dec : EqDecision Kind.
Proof. solve_decision. Defined.

(** A struct tag, already split into its [key:"value"] pairs. *)
Definition StructTag := list (string * string).

Fixpoint Get (tag : StructTag) (key : string) : string :=
  match tag with
  | [] => ""
  | (k, v) :: tag' => if String.eqb k key then v else Get tag' key
  end.

Record StructField_ (T : Type) := mkStructField {
  Name : string;
  PkgPath : string;          (* empty for an exported field *)
  Typ : T;
  Tag : StructTag;
  Anonymous : bool           (* an embedded field *)
}.
Arguments mkStructField {T}.
Arguments Name {T}.
Arguments PkgPath {T}.
Arguments Typ {T}.
Arguments Tag {T}.
Arguments Anonymous {T}.

(** A type. [id] is the identity of the type (its package path and name,
    or the type literal): two types are the same type when they are
    equal here. [TOther] is a type of any kind but [Struct]. *)
#[warnings="-register-all"]
Inductive Type_ :=
| TOther (id : string) (k : Kind)
| TStruct (id : string) (fields : list (StructField_ Type_)).

Definition StructField := StructField_ Type_.

Definition KindOf (t : Type_) : Kind :=
  match t with
  | TOther _ k => k
  | TStruct _ _ => Struct
  end.

(** The predeclared types and [time.Duration]. *)
Definition bool_ := TOther "bool" Bool.
Definition string_ := TOther "string" String.
Definition int := TOther "int" Int.
Definition int8 := TOther "int8" Int8.
Definition int16 := TOther "int16" Int16.
Definition int32 := TOther "int32" Int32.
Definition int64 := TOther "int64" Int64.
Definition uint := TOther "uint" Uint.
Definition uint8 := TOther "uint8" Uint8.
Definition uint16 := TOther "uint16" Uint16.
Definition uint32 := TOther "uint32" Uint32.
Definition uint64 := TOther "uint64" Uint64.
Definition float32 := TOther "float32" Float32.
Definition float64 := TOther "float64" Float64.
Definition Duration := TOther "time.Duration" Int64.

Fixpoint Type_eqb (a b : Type_) {struct a} : bool :=
  match a, b with
  | TOther i k, TOther j k' => String.eqb i j && bool_decide (k = k')
  | TStruct i fs, TStruct j gs =>
      String.eqb i j &&
      (fix all2 (fs gs : list StructField) : bool :=
         match fs, gs with
         | [], [] => true
         | f :: fs', g :: gs' =>
             String.eqb (Name f) (Name g) && String.eqb (PkgPath f) (PkgPath g)
             && Type_eqb (Typ f) (Typ g)
             && bool_decide (Tag f = Tag g) && Bool.eqb (Anonymous f) (Anonymous g)
             && all2 fs' gs'
         | _, _ => false
         end) fs gs
  | _, _ => false
  end.

(** What a location of the record holds. *)
Inductive Val :=
| VBool (b : bool)
| VInt (z : Z)
| VUint (z : Z)
| VFloat (bits : Z)
| VString (s : string).

(** A location: the indices of the fields from the root of the record. *)
Definition Loc := list nat.

(** A settable [reflect.Value]: its type and where it points. *)
Record Value := mkValue { typ : Type_; ptr : Loc }.

Definition ValueKind (v : Value) : Kind := KindOf (typ v).

Inductive panic :=
| ValueError (Method : string) (k : Kind)   (* *reflect.ValueError *)
| UnknownKind (k : Kind) (name : string).   (* panic("unknown kind: ...") *)

Definition intBits (k : Kind) : option Z :=
  match k with
  | Int => Some strconv.IntSize
  | Int8 => Some 8 | Int16 => Some 16 | Int32 => Some 32 | Int64 => Some 64
  | _ => None
  end.

Definition uintBits (k : Kind) : option Z :=
  match k with
  | Uint | Uintptr => Some strconv.IntSize
  | Uint8 => Some 8 | Uint16 => Some 16 | Uint32 => Some 32 | Uint64 => Some 64
  | _ => None
  end.

(** [v.SetBool(x)] *)
Definition SetBool (v : Value) (x : bool) (s : gmap Loc Val) : panic + gmap Loc Val :=
  match ValueKind v with
  | Bool => inr (<[ptr v := VBool x]> s)
  | k => inl (ValueError "reflect.Value.SetBool" k)
  end.

(** [v.SetInt(x)]: the store of [int8(x)], [int16(x)], ... *)
Definition SetInt (v : Value) (x : Z) (s : gmap Loc Val) : panic + gmap Loc Val :=
  match intBits (ValueKind v) with
  | Some bits => inr (<[ptr v := VInt (Wrap.int bits x)]> s)
  | None => inl (ValueError "reflect.Value.SetInt" (ValueKind v))
  end.

(** [v.SetUint(x)] *)
Definition SetUint (v : Value) (x : Z) (s : gmap Loc Val) : panic + gmap Loc Val :=
  match uintBits (ValueKind v) with
  | Some bits => inr (<[ptr v := VUint (Wrap.uint bits x)]> s)
  | None => inl (ValueError "reflect.Value.SetUint" (ValueKind v))
  end.

(** [v.SetFloat(x)], given the conversion [float32(x)] *)
Definition SetFloat (toFloat32 : Z -> Z) (v : Value) (x : Z) (s : gmap Loc Val)
  : panic + gmap Loc Val :=
  match ValueKind v with
  | Float32 => inr (<[ptr v := VFloat (toFloat32 x)]> s)
  | Float64 => inr (<[ptr v := VFloat x]> s)
  | k => inl (ValueError "reflect.Value.SetFloat" k)
  end.

(** [v.SetString(x)] *)
Definition SetString (v : Value) (x : string) (s : gmap Loc Val) : panic + gmap Loc Val :=
  match ValueKind v with
  | String => inr (<[ptr v := VString x]> s)
  | k => inl (ValueError "reflect.Value.SetString" k)
  end.

(** [v.Set(reflect.ValueOf(d))] for a [time.Duration] [d]: the types
    must agree. *)
Definition SetDuration (v : Value) (d : Z) (s : gmap Loc Val) : panic + gmap Loc Val :=
  if Type_eqb (typ v) Duration then inr (<[ptr v := VInt d]> s)
  else inl (ValueError "reflect.Set" (ValueKind v)).

End reflect.

(** The destination record in memory. *)
Abbreviation Store := (gmap reflect.Loc reflect.Val).

(** The argument of [Load], an [interface{}]. *)
Inductive Target :=
| NilInterface                      (* [nil] *)
| Direct (t : reflect.Type_)        (* a value of a type that is not a pointer type *)
| NilPointer (elem : reflect.Type_) (* a nil [*elem] *)
| Pointer (elem : reflect.Type_).   (* the address of the record in the store *)

Inductive Format := YAML | JSON | TOML.

(** ** The library functions the embedding does not spell out

    Floating point, Unicode case mapping and the file decoders are taken
    as given: a float is the bit pattern of its IEEE 754 encoding, and
    what the libraries do is a parameter of the development. *)

Record GoLib := {
  (** [strings.Map(unicode.ToUpper, s)], the path of [strings.ToUpper]
      for a string that is not pure ASCII *)
  unicodeToUpper : string -> string;
  (** [strings.Map(unicode.ToLower, s)] *)
  unicodeToLower : string -> string;
  (** [strconv.ParseFloat(s, bitSize)] *)
  parseFloat : string -> Z -> ret Z;
  (** the conversion [float32(x)] of a [float64] *)
  toFloat32 : Z -> Z;
  (** [uint64(float64(f) * (float64(unit) / scale))] *)
  fracNanos : Z -> Z -> Z -> Z;
  (** the decoders [yaml.NewDecoder(f).Decode(dst)],
      [json.NewDecoder(f).Decode(dst)] and [toml.DecodeReader(f, dst)] on
      the contents of [f]: they write into the record behind [dst] *)
  decode : Format -> string -> Target -> Store -> Store * option error
}.

(** ** package strings, package path/filepath *)

Module strings.

Definition ToUpper (lib : GoLib) (s : string) : string :=
  if Bytes.isASCII s then Bytes.map Bytes.toUpper s else unicodeToUpper lib s.

Definition ToLower (lib : GoLib) (s : string) : string :=
  if Bytes.isASCII s then Bytes.map Bytes.toLower s else unicodeToLower lib s.

(** [ReplaceAll(s, old, new)] for one-byte [old] and [new]. *)
Definition ReplaceAll (s : string) (old new : ascii) : string :=
  Bytes.map (fun c => if Ascii.eqb c old then new else c) s.

End strings.

Module filepath.

(** The scan of [Ext], from the last byte backwards, read forwards: the
    extension seen so far is reset by a separator and set by a dot. *)
Fixpoint extFrom (path : string) (acc : string) : string :=
  match path with
  | EmptyString => acc
  | String c rest =>
      if Ascii.eqb c "/" then extFrom rest ""
      else if Ascii.eqb c "." then extFrom rest path
      else extFrom rest acc
  end.

Definition Ext (path : string) : string := extFrom path "".

End filepath.

(** ** package time *)

Module time.

Definition Nanosecond : Z := 1.
Definition Microsecond : Z := 1000 * Nanosecond.
Definition Millisecond : Z := 1000 * Microsecond.
Definition Second : Z := 1000 * Millisecond.
Definition Minute : Z := 60 * Second.
Definition Hour : Z := 60 * Minute.

Definition micro_s : string := String (Bytes.of_val 194) (String (Bytes.of_val 181) "s").
Definition mu_s : string := String (Bytes.of_val 206) (String (Bytes.of_val 188) "s").

Definition unitMap (u : string) : option Z :=
  if String.eqb u "ns" then Some Nanosecond
  else if String.eqb u "us" then Some Microsecond
  else if String.eqb u micro_s then Some Microsecond
  else if String.eqb u mu_s then Some Microsecond
  else if String.eqb u "ms" then Some Millisecond
  else if String.eqb u "s" then Some Second
  else if String.eqb u "m" then Some Minute
  else if String.eqb u "h" then Some Hour
  else None.

(** [leadingInt]: [None] is [errLeadingInt]. *)
Fixpoint leadingInt (s : string) (x : Z) : option (Z * string) :=
  match s with
  | EmptyString => Some (x, s)
  | String c s' =>
      if negb (Bytes.isDigit c) then Some (x, s)
      else if 2 ^ 63 / 10 <? x then None
      else
        let x := (x * 10 + (Bytes.val c - Bytes.val "0")) mod 2 ^ 64 in
        if 2 ^ 63 <? x then None else leadingInt s' x
  end.

Fixpoint leadingFraction (s : string) (x scale : Z) (overflow : bool)
  : Z * Z * string :=
  match s with
  | EmptyString => (x, scale, s)
  | String c s' =>
      if negb (Bytes.isDigit c) then (x, scale, s)
      else if overflow then leadingFraction s' x scale true
      else if (2 ^ 63 - 1) / 10 <? x then leadingFraction s' x scale true
      else
        let y := (x * 10 + (Bytes.val c - Bytes.val "0")) mod 2 ^ 64 in
        if 2 ^ 63 <? y then leadingFraction s' x scale true
        else leadingFraction s' y (scale * 10) false
  end.

(** The unit: the bytes up to the next ['.'] or digit. *)
Fixpoint unitSpan (s : string) : string * string :=
  match s with
  | EmptyString => (s, s)
  | String c s' =>
      if Ascii.eqb c "." || Bytes.isDigit c then ("", s)
      else let '(u, rest) := unitSpan s' in (String c u, rest)
  end.

Definition startsNumber (s : string) : bool :=
  match s with
  | EmptyString => false
  | String c _ => Ascii.eqb c "." || Bytes.isDigit c
  end.

(** The optional fraction after the integer: its digits, its scale, what
    follows, and whether a digit was read. *)
Definition fraction (s : string) : Z * Z * string * bool :=
  match s with
  | String c t =>
      if Ascii.eqb c "." then
        let '(f, scale, t') := leadingFraction t 0 1 false in
        (f, scale, t', negb (String.length t =? String.length t')%nat)
      else (0, 1, s, false)
  | EmptyString => (0, 1, s, false)
  end.

(** One turn of the loop [for s != ""] of [ParseDuration]: the
    nanoseconds of one number with its unit, and what follows. *)
Definition parseTerm (lib : GoLib) (orig s : string) : ret (Z * string) :=
  if negb (startsNumber s) then Err (DurationError InvalidDuration orig)
  else
    match leadingInt s 0 with
    | None => Err (DurationError InvalidDuration orig)
    | Some (v, s1) =>
        let pre := negb (String.length s =? String.length s1)%nat in
        let '(f, scale, s2, post) := fraction s1 in
        if negb pre && negb post then Err (DurationError InvalidDuration orig)
        else
          let '(u, s3) := unitSpan s2 in
          if String.eqb u "" then Err (DurationError MissingUnit orig)
          else
            match unitMap u with
            | None => Err (DurationError (UnknownUnit u) orig)
            | Some unit =>
                if 2 ^ 63 / unit <? v then Err (DurationError InvalidDuration orig)
                else
                  let v := (v * unit) mod 2 ^ 64 in
                  let v := if 0 <? f
                           then (v + fracNanos lib f unit scale) mod 2 ^ 64
                           else v in
                  if (0 <? f) && (2 ^ 63 <? v)
                  then Err (DurationError InvalidDuration orig)
                  else Val (v, s3)
            end
    end.

(** The loop itself, summing into [d]; every turn consumes at least the
    unit, so [length s] turns are enough. *)
Fixpoint parseTerms (lib : GoLib) (fuel : nat) (orig s : string) (d : Z) : ret Z :=
  match s with
  | EmptyString => Val d
  | String _ _ =>
      match fuel with
      | O => Err (DurationError InvalidDuration orig)
      | S fuel =>
          match parseTerm lib orig s with
          | Err e => Err e
          | Val (v, s3) =>
              let d := (d + v) mod 2 ^ 64 in
              if 2 ^ 63 <? d then Err (DurationError InvalidDuration orig)
              else parseTerms lib fuel orig s3 d
          end
      end
  end.

(** [ParseDuration]; the result is a [Duration], an [int64] count of
    nanoseconds. *)
Definition ParseDuration (lib : GoLib) (orig : string) : ret Z :=
  let '(neg, s) :=
    match orig with
    | String "-" t => (true, t)
    | String "+" t => (false, t)
    | _ => (false, orig)
    end in
  if String.eqb s "0" then Val 0
  else if String.eqb s "" then Err (DurationError InvalidDuration orig)
  else
    match parseTerms lib (String.length s) orig s 0 with
    | Err e => Err e
    | Val d =>
        if neg then Val (Wrap.int 64 (- Wrap.int 64 d))
        else if 2 ^ 63 - 1 <? d then Err (DurationError InvalidDuration orig)
        else Val d
    end.

End time.


(** ** The process state

    What the loader reads from its process: the files [os.Open] finds, the
    environment, and the flags of [flag.CommandLine] as they are once
    [flag.Parse] has returned. *)

Record World := {
  (** [os.Open(name)]: the contents behind the handle, or the error *)
  Open : string -> ret string;
  (** [os.LookupEnv(key)] *)
  LookupEnv : string -> option string;
  (** [flag.Lookup(name)], as the [flg.Value.String()] of the flag found *)
  flagLookup : string -> option string
}.

(** ** Results and loops *)

(** How a call of a function returning [error] ends. *)
Inductive outcome :=
| Return (err : option error)
| Panic (p : reflect.panic).

(** How one turn of a loop body ends. *)
Inductive ctl :=
| Continue
| Break
| Leave (o : outcome).

(** [for _, x := range xs { body }]: [None] when the loop is left at its
    end or by [break], [Some o] when the body returned or panicked. *)
Fixpoint rangeLoop {A : Type} (body : A -> Store -> Store * ctl)
    (xs : list A) (s : Store) : Store * option outcome :=
  match xs with
  | [] => (s, None)
  | x :: xs' =>
      match body x s with
      | (s', Continue) => rangeLoop body xs' s'
      | (s', Break) => (s', None)
      | (s', Leave o) => (s', Some o)
      end
  end.

(** The statement after a loop: [return o]. *)
Definition orReturn (r : Store * option outcome) (o : outcome) : Store * outcome :=
  match r with
  | (s, None) => (s, o)
  | (s, Some o') => (s, o')
  end.

(** [if err := call; err != nil { return err }] inside a loop body. *)
Definition check (r : Store * outcome) : Store * ctl :=
  match r with
  | (s, Return None) => (s, Continue)
  | (s, o) => (s, Leave o)
  end.

(** A reflect setter that panicked, or the store it left. *)
Definition stored (s : Store) (r : reflect.panic + Store) : Store * outcome :=
  match r with
  | inr s' => (s', Return None)
  | inl p => (s, Panic p)
  end.

(** ** package aconfig *)

Definition defaultValueTag : string := "default".

Record LoaderConfig := mkLoaderConfig {
  UseDefaults : bool;
  UseFile : bool;
  UseEnv : bool;
  UseFlag : bool;
  EnvPrefix : string;
  FlagPrefix : string;
  Files : list string
}.

#[warnings="-register-all"]
Inductive fieldData := mkFieldData {
  Parent : option fieldData;
  Name : string;
  Field : reflect.StructField;
  Value : reflect.Value;
  DefaultValue : string
}.

Record Loader := mkLoader {
  config : LoaderConfig;
  fields : list fieldData
}.

Definition DefaultConfig : LoaderConfig :=
  {| UseDefaults := true; UseFile := true; UseEnv := true; UseFlag := true;
     EnvPrefix := ""; FlagPrefix := ""; Files := [] |}.

Definition NewLoader (config : LoaderConfig) : Loader :=
  let config :=
    if negb (String.eqb (EnvPrefix config) "")
    then {| UseDefaults := UseDefaults config; UseFile := UseFile config;
            UseEnv := UseEnv config; UseFlag := UseFlag config;
            EnvPrefix := EnvPrefix config ++ "_";
            FlagPrefix := FlagPrefix config; Files := Files config |}
    else config in
  let config :=
    if negb (String.eqb (FlagPrefix config) "")
    then {| UseDefaults := UseDefaults config; UseFile := UseFile config;
            UseEnv := UseEnv config; UseFlag := UseFlag config;
            EnvPrefix := EnvPrefix config;
            FlagPrefix := FlagPrefix config ++ "."; Files := Files config |}
    else config in
  {| config := config; fields := [] |}.

(** [value.CanSet()] for a field reached from the pointer passed to
    [Load] through settable fields only: the field is exported. *)
Definition CanSet (field : reflect.StructField) : bool :=
  String.eqb (reflect.PkgPath field) "".

(** [getFieldsHelper(valueObject, parent)] for the struct value of type
    [t] at [loc]. Both callers pass a value of kind [Struct] ([getFields]
    below has the panic of [NumField] on any other kind). *)
Fixpoint getFieldsHelper (t : reflect.Type_) (loc : reflect.Loc)
    (parent : option fieldData) {struct t} : list fieldData :=
  match t with
  | reflect.TStruct _ fs =>
      (fix loop (fs : list reflect.StructField) (i : nat) {struct fs} : list fieldData :=
         match fs with
         | [] => []
         | field :: rest =>
             let value := reflect.mkValue (reflect.Typ field) (loc ++ [i])%list in
             if negb (CanSet field) then loop rest (S i)
             else
               let fd := {| Parent := parent; Name := reflect.Name field;
                            Field := field; Value := value;
                            DefaultValue := reflect.Get (reflect.Tag field) defaultValueTag |} in
               match reflect.Typ field with
               | reflect.TOther _ _ => fd :: loop rest (S i)
               | reflect.TStruct _ _ =>
                   let parent := if reflect.Anonymous field then Parent fd else Some fd in
                   (getFieldsHelper (reflect.Typ field) (loc ++ [i]) parent
                      ++ loop rest (S i))%list
               end
         end) fs 0%nat
  | reflect.TOther _ _ => []
  end.

(** [reflect.ValueOf(x).Elem()]: [None] is the zero [Value]. *)
Definition ValueOfElem (x : Target) : reflect.panic + option reflect.Value :=
  match x with
  | NilInterface => inl (reflect.ValueError "reflect.Value.Elem" reflect.Invalid)
  | Direct t => inl (reflect.ValueError "reflect.Value.Elem" (reflect.KindOf t))
  | NilPointer _ => inr None
  | Pointer t => inr (Some (reflect.mkValue t []))
  end.

Definition getFields (x : Target) : reflect.panic + list fieldData :=
  (* TODO: check not struct *)
  match ValueOfElem x with
  | inl p => inl p
  | inr None => inl (reflect.ValueError "reflect.Value.Type" reflect.Invalid)
  | inr (Some valueObject) =>
      match reflect.typ valueObject with
      | reflect.TStruct _ _ =>
          inr (getFieldsHelper (reflect.typ valueObject) (reflect.ptr valueObject) None)
      | reflect.TOther _ k => inl (reflect.ValueError "reflect.Value.NumField" k)
      end
  end.

Fixpoint FullName_ (f : fieldData) : string :=
  match Parent f with
  | None => Name f
  | Some p => FullName_ p ++ "." ++ Name f
  end.

(** [f.FullName()] on a [*fieldData], [None] being the nil pointer. *)
Definition FullName (f : option fieldData) : string :=
  match f with
  | None => ""
  | Some f => FullName_ f
  end.

Section Loader.

Context (lib : GoLib).

Definition setterKindFn : Type := fieldData -> string -> Store -> Store * outcome.

Definition setBool : setterKindFn := fun field value s =>
  match strconv.ParseBool value with
  | Err err => (s, Return (Some err))
  | Val val => stored s (reflect.SetBool (Value field) val s)
  end.

Definition setInt : setterKindFn := fun field value s =>
  match strconv.ParseInt value 10 64 with
  | Err err => (s, Return (Some err))
  | Val val => stored s (reflect.SetInt (Value field) val s)
  end.

Definition setInt64 : setterKindFn := fun field value s =>
  if reflect.Type_eqb (reflect.Typ (Field field)) reflect.Duration then
    match time.ParseDuration lib value with
    | Err err => (s, Return (Some err))
    | Val val => stored s (reflect.SetDuration (Value field) val s)
    end
  else setInt field value s.

Definition setUint : setterKindFn := fun field value s =>
  match strconv.ParseUint value 10 64 with
  | Err err => (s, Return (Some err))
  | Val val => stored s (reflect.SetUint (Value field) val s)
  end.

Definition setFloat : setterKindFn := fun field value s =>
  match parseFloat lib value 64 with
  | Err err => (s, Return (Some err))
  | Val val => stored s (reflect.SetFloat (toFloat32 lib) (Value field) val s)
  end.

Definition setString : setterKindFn := fun field value s =>
  stored s (reflect.SetString (Value field) value s).

Definition settersByKind (k : reflect.Kind) : option setterKindFn :=
  match k with
  | reflect.Bool => Some setBool
  | reflect.String => Some setString
  | reflect.Int | reflect.Int8 | reflect.Int16 | reflect.Int32 => Some setInt
  | reflect.Int64 => Some setInt64
  | reflect.Uint | reflect.Uint8 | reflect.Uint16 | reflect.Uint32
  | reflect.Uint64 => Some setUint
  | reflect.Float32 | reflect.Float64 => Some setFloat
  | _ => None
  end.

Definition setFieldData (l : Loader) (field : fieldData) (value : string)
    (s : Store) : Store * outcome :=
  match settersByKind (reflect.ValueKind (Value field)) with
  | Some setter => setter field value s
  | None => (s, Panic (reflect.UnknownKind (reflect.ValueKind (Value field)) (Name field)))
  end.

Definition getEnvName (l : Loader) (name : string) : string :=
  strings.ToUpper lib (EnvPrefix (config l) ++ strings.ReplaceAll name "." "_").

Definition getFlagName (l : Loader) (name : string) : string :=
  strings.ToLower lib (FlagPrefix (config l) ++ name).

Definition loadDefaults (l : Loader) (s : Store) : Store * outcome :=
  orReturn
    (rangeLoop (fun fd s => check (setFieldData l fd (DefaultValue fd) s))
       (fields l) s)
    (Return None).

Definition formatOf (ext : string) : option Format :=
  if String.eqb ext ".yaml" || String.eqb ext ".yml" then Some YAML
  else if String.eqb ext ".json" then Some JSON
  else if String.eqb ext ".toml" then Some TOML
  else None.

Definition loadFromFile (w : World) (l : Loader) (dst : Target) (s : Store)
  : Store * outcome :=
  orReturn
    (rangeLoop
       (fun file s =>
          match Open w file with
          | Err err => (s, Leave (Return (Some err)))
          | Val f =>
              let ext := strings.ToLower lib (filepath.Ext file) in
              match formatOf ext with
              | None => (s, Leave (Return (Some (UnsupportedFormat ext))))
              | Some format =>
                  match decode lib format f dst s with
                  | (s', Some err) => (s', Leave (Return (Some (FileParsingError err))))
                  | (s', None) => (s', Break)
                  end
              end
          end)
       (Files (config l)) s)
    (Return None).

Definition loadEnvironment (w : World) (l : Loader) (s : Store) : Store * outcome :=
  orReturn
    (rangeLoop
       (fun field s =>
          let envName := getEnvName l (FullName (Some field)) in
          match LookupEnv w envName with
          | None => (s, Continue)
          | Some v => check (setFieldData l field v s)
          end)
       (fields l) s)
    (Return None).

(** The flags of [w] are those [flag.Parse] leaves, whether this call
    or an earlier one ran it. *)
Definition loadFlags (w : World) (l : Loader) (s : Store) : Store * outcome :=
  orReturn
    (rangeLoop
       (fun field s =>
          let flagName := getFlagName l (FullName (Some field)) in
          match flagLookup w flagName with
          | None => (s, Continue)
          | Some v => check (setFieldData l field v s)
          end)
       (fields l) s)
    (Return None).

(** [if err := stage; err != nil { return err }], then the rest. *)
Definition andThen (r : Store * outcome) (rest : Store -> Store * outcome)
  : Store * outcome :=
  match r with
  | (s, Return None) => rest s
  | _ => r
  end.

(** [l.Load(into)]: the loader it leaves, the store it leaves, and how
    it ends. *)
Definition Load (w : World) (l : Loader) (into : Target) (s : Store)
  : Loader * (Store * outcome) :=
  match getFields into with
  | inl p => (l, (s, Panic p))
  | inr fs =>
      let l := {| config := config l; fields := fs |} in
      (l,
       andThen (if UseDefaults (config l) then loadDefaults l s else (s, Return None))
         (fun s =>
       andThen (if UseFile (config l) then loadFromFile w l into s else (s, Return None))
         (fun s =>
       andThen (if UseEnv (config l) then loadEnvironment w l s else (s, Return None))
         (fun s =>
       andThen (if UseFlag (config l) then loadFlags w l s else (s, Return None))
         (fun s => (s, Return None))))))
  end.

End Loader.

(** ** The field catalog *)

(** The loop of [getFieldsHelper] from field [i] on. *)
Fixpoint getFieldsLoop (loc : reflect.Loc) (parent : option fieldData)
    (fs : list reflect.StructField) (i : nat) {struct fs} : list fieldData :=
  match fs with
  | [] => []
  | field :: rest =>
      let value := reflect.mkValue (reflect.Typ field) (loc ++ [i])%list in
      if negb (CanSet field) then getFieldsLoop loc parent rest (S i)
      else
        let fd := {| Parent := parent; Name := reflect.Name field;
                     Field := field; Value := value;
                     DefaultValue := reflect.Get (reflect.Tag field) defaultValueTag |} in
        match reflect.Typ field with
        | reflect.TOther _ _ => fd :: getFieldsLoop loc parent rest (S i)
        | reflect.TStruct _ _ =>
            let parent' := if reflect.Anonymous field then Parent fd else Some fd in
            (getFieldsHelper (reflect.Typ field) (loc ++ [i]) parent'
               ++ getFieldsLoop loc parent rest (S i))%list
        end
  end.

(** *** Dotted names, as the specification words them

    The name of a leaf is the names on the way from the root to the leaf,
    joined with dots; an embedded group adds no name to the way. *)

Fixpoint join (sep : string) (segs : list string) : string :=
  match segs with
  | [] => ""
  | [x] => x
  | x :: rest => x ++ sep ++ join sep rest
  end.

(** The names on the way to each leaf of a group, leaf by leaf. *)
Fixpoint leafSegments (t : reflect.Type_) : list (list string) :=
  match t with
  | reflect.TOther _ _ => []
  | reflect.TStruct _ fs =>
      (fix each (fs : list reflect.StructField) : list (list string) :=
         match fs with
         | [] => []
         | f :: rest =>
             if negb (CanSet f) then each rest
             else
               match reflect.Typ f with
               | reflect.TOther _ _ => [reflect.Name f] :: each rest
               | reflect.TStruct _ _ =>
                   ((if reflect.Anonymous f
                     then leafSegments (reflect.Typ f)
                     else map (cons (reflect.Name f)) (leafSegments (reflect.Typ f)))
                    ++ each rest)%list
               end
         end) fs
  end.

(** The names on the way to a descriptor, itself included. *)
Fixpoint segments (f : fieldData) : list string :=
  match Parent f with
  | None => [Name f]
  | Some p => (segments p ++ [Name f])%list
  end.

Definition ancestors (parent : option fieldData) : list string :=
  match parent with
  | None => []
  | Some p => segments p
  end.

(** The loop of [leafSegments]. *)
Fixpoint leafSegmentsLoop (fs : list reflect.StructField) : list (list string) :=
  match fs with
  | [] => []
  | f :: rest =>
      if negb (CanSet f) then leafSegmentsLoop rest
      else
        match reflect.Typ f with
        | reflect.TOther _ _ => [reflect.Name f] :: leafSegmentsLoop rest
        | reflect.TStruct _ _ =>
            ((if reflect.Anonymous f
              then leafSegments (reflect.Typ f)
              else map (cons (reflect.Name f)) (leafSegments (reflect.Typ f)))
             ++ leafSegmentsLoop rest)%list
        end
  end.

(** The dotted name of a leaf [segs] below [parent]. *)
Definition dottedName (parent : option fieldData) (segs : list string) : string :=
  join "." (ancestors parent ++ segs).

(** ** The stages, as the specification words them *)

Inductive Stage := Defaults | FileStage | Environment | Flags.

(** The fixed order of the stages. *)
Definition stageOrder : list Stage := [Defaults; FileStage; Environment; Flags].

(** Whether the [use_*] flag of a stage is true. *)
Definition enabled (cfg : LoaderConfig) (st : Stage) : bool :=
  match st with
  | Defaults => UseDefaults cfg
  | FileStage => UseFile cfg
  | Environment => UseEnv cfg
  | Flags => UseFlag cfg
  end.

Definition runStage (lib : GoLib) (w : World) (l : Loader) (into : Target)
    (st : Stage) : Store -> Store * outcome :=
  match st with
  | Defaults => loadDefaults lib l
  | FileStage => loadFromFile lib w l into
  | Environment => loadEnvironment lib w l
  | Flags => loadFlags lib w l
  end.

(** Run stages one after the other; the first that does not succeed ends
    the run with its outcome and with the store as that stage left it. *)
Fixpoint runStages (stages : list (Store -> Store * outcome)) (s : Store)
  : Store * outcome :=
  match stages with
  | [] => (s, Return None)
  | st :: rest =>
      match st s with
      | (s', Return None) => runStages rest s'
      | r => r
      end
  end.

(** ** Environment keys, as the specification words them *)

(** The prefix after construction: a non-empty prefix followed by ["_"]. *)
Definition normalizedEnvPrefix (cfg : LoaderConfig) : string :=
  if String.eqb (EnvPrefix cfg) "" then "" else EnvPrefix cfg ++ "_".

(** uppercase(prefix + dotted name with ['.'] replaced by ['_']) *)
Definition envKey (lib : GoLib) (cfg : LoaderConfig) (dotted : string) : string :=
  strings.ToUpper lib (normalizedEnvPrefix cfg ++ strings.ReplaceAll dotted "." "_").

(** A world whose environment answers for the given keys only. *)
Definition onlyEnvKeys (keys : list string) (w : World) : World :=
  {| Open := Open w;
     LookupEnv := fun k => if existsb (String.eqb k) keys then LookupEnv w k else None;
     flagLookup := flagLookup w |}.

(** ** Descriptors of the catalog *)

(** The value of a descriptor is the value of its field. *)
Definition wellTyped (fd : fieldData) : Prop :=
  reflect.typ (Value fd) = reflect.Typ (Field fd).

(** ** Sample records, loaders and worlds *)

(** An exported field with the given [default] tag. *)
Definition exported (name : string) (t : reflect.Type_) (tag : reflect.StructTag)
  : reflect.StructField :=
  reflect.mkStructField name "" t tag false.

(** An embedded exported field of a struct type. *)
Definition embedded (name : string) (t : reflect.Type_) : reflect.StructField :=
  reflect.mkStructField name "" t [] true.

(** A leaf descriptor of a root record: field number [i], of type [t]. *)
Definition leafAt (i : nat) (name : string) (t : reflect.Type_) (tag : reflect.StructTag)
  : fieldData :=
  {| Parent := None; Name := name; Field := exported name t tag;
     Value := reflect.mkValue t [i];
     DefaultValue := reflect.Get tag defaultValueTag |}.

(** A library instance for the samples: case mapping leaves non-ASCII
    strings alone, no float is accepted, fractions of a unit are cut
    exactly, decoding a file writes nothing. *)
Definition sampleLib : GoLib :=
  {| unicodeToUpper := fun s => s;
     unicodeToLower := fun s => s;
     parseFloat := fun s _ => Err (NumError "ParseFloat" s ErrSyntax);
     toFloat32 := fun z => z;
     fracNanos := fun f unit scale => f * unit / scale;
     decode := fun _ _ _ s => (s, None) |}.

(** A process with no environment variable and no flag, in whose
    directory the files [present] exist. *)
Definition worldWithFiles (present : list (string * string)) : World :=
  {| Open := fun name =>
       match find (fun p => String.eqb (fst p) name) present with
       | Some p => Val (snd p)
       | None => Err (PathError "open" name "no such file or directory")
       end;
     LookupEnv := fun _ => None;
     flagLookup := fun _ => None |}.

(** Only the defaults stage. *)
Definition onlyDefaults : LoaderConfig :=
  {| UseDefaults := true; UseFile := false; UseEnv := false; UseFlag := false;
     EnvPrefix := ""; FlagPrefix := ""; Files := [] |}.

(** [type MyConfig struct { Port int `default:"1111"`; Auth struct { User,
    Pass string } }] of the README, with an embedded [Base] added. *)
Definition Base : reflect.Type_ :=
  reflect.TStruct "Base" [exported "Name" reflect.string_ [("default", "base")]].

Definition MyConfig : reflect.Type_ :=
  reflect.TStruct "MyConfig"
    [exported "Port" reflect.int [("default", "1111")];
     exported "Auth"
       (reflect.TStruct "struct { User string; Pass string }"
          [exported "User" reflect.string_ [("default", "def-user")];
           exported "Pass" reflect.string_ [("default", "def-pass")]]) [];
     embedded "Base" Base].

(** The loader of the README. *)
Definition readmeConfig : LoaderConfig :=
  {| UseDefaults := true; UseFile := true; UseEnv := true; UseFlag := true;
     EnvPrefix := "APP"; FlagPrefix := "app";
     Files := ["file.json"; "ouch.yaml"] |}.


(** ** Coercion, as the specification words it

    The value a raw string stands for in a leaf of type [t]: a boolean
    token, a base-10 integer within the width of the type, a duration
    literal for [time.Duration], a float, or the string itself; [None]
    when the string is not accepted or the kind has no coercion. *)

Definition accepted {T : Type} (mk : T -> reflect.Val) (r : ret T) : option reflect.Val :=
  match r with
  | Val v => Some (mk v)
  | Err _ => None
  end.

Definition coerce (lib : GoLib) (t : reflect.Type_) (raw : string) : option reflect.Val :=
  match reflect.KindOf t with
  | reflect.Bool => accepted reflect.VBool (strconv.ParseBool raw)
  | reflect.String => Some (reflect.VString raw)
  | reflect.Int | reflect.Int8 | reflect.Int16 | reflect.Int32 | reflect.Int64 =>
      if reflect.Type_eqb t reflect.Duration
      then accepted reflect.VInt (time.ParseDuration lib raw)
      else
        match reflect.intBits (reflect.KindOf t) with
        | Some bits => accepted reflect.VInt (strconv.ParseInt raw 10 bits)
        | None => None
        end
  | reflect.Uint | reflect.Uint8 | reflect.Uint16 | reflect.Uint32 | reflect.Uint64 =>
      match reflect.uintBits (reflect.KindOf t) with
      | Some bits => accepted reflect.VUint (strconv.ParseUint raw 10 bits)
      | None => None
      end
  | reflect.Float32 =>
      accepted (fun x => reflect.VFloat (toFloat32 lib x)) (parseFloat lib raw 64)
  | reflect.Float64 => accepted reflect.VFloat (parseFloat lib raw 64)
  | _ => None
  end.

(** Where a descriptor writes. *)
Definition locOf (fd : fieldData) : reflect.Loc := reflect.ptr (Value fd).

(** The default of a leaf, coerced to its kind. *)
Definition coercedDefault (lib : GoLib) (fd : fieldData) : option reflect.Val :=
  coerce lib (reflect.Typ (Field fd)) (DefaultValue fd).

(** The record once every leaf holds its coerced default. *)
Definition withDefaults (lib : GoLib) (fds : list fieldData) (s : Store) : Store :=
  foldl (fun s fd =>
           match coercedDefault lib fd with
           | Some v => <[locOf fd := v]> s
           | None => s
           end) s fds.

(** [struct { Port int }], no default declared. *)
Definition NoDefault : reflect.Type_ :=
  reflect.TStruct "NoDefault" [exported "Port" reflect.int []].

(** [struct { Port int `default:"abc"` }] *)
Definition BadDefault : reflect.Type_ :=
  reflect.TStruct "BadDefault" [exported "Port" reflect.int [("default", "abc")]].

(** A location below [loc], under a field index that is at least [i]. *)
Definition below (loc : reflect.Loc) (i : nat) (p : reflect.Loc) : Prop :=
  exists j rest, p = (loc ++ j :: rest)%list /\ (i <= j)%nat.


(** ** Decimal numerals

    The number a source string stands for, read in base 10. *)

(** The digits of [s] appended to the number [acc]. *)
Fixpoint digitsValue (s : string) (acc : Z) : option Z :=
  match s with
  | EmptyString => Some acc
  | String c s' =>
      if Bytes.isDigit c
      then digitsValue s' (acc * 10 + (Bytes.val c - Bytes.val "0"))
      else None
  end.

(** One digit or more. *)
Definition unsignedValue (s : string) : option Z :=
  if String.eqb s "" then None else digitsValue s 0.

(** An optional sign, then one digit or more. *)
Definition signedValue (s : string) : option Z :=
  match s with
  | EmptyString => None
  | String c rest =>
      if Ascii.eqb c "-" then option_map Z.opp (unsignedValue rest)
      else if Ascii.eqb c "+" then unsignedValue rest
      else unsignedValue s
  end.

(** ** The stages that set leaves from raw strings

    The defaults, environment and flag stages run the same loop: for each
    leaf of the catalog, the raw string the stage has for it, if any, is
    handed to [setFieldData]. *)

(** The raw string a stage has for a leaf. *)
Definition stageSource (lib : GoLib) (w : World) (l : Loader) (st : Stage)
    (fd : fieldData) : option string :=
  match st with
  | Defaults => Some (DefaultValue fd)
  | FileStage => None
  | Environment => LookupEnv w (getEnvName lib l (FullName (Some fd)))
  | Flags => flagLookup w (getFlagName lib l (FullName (Some fd)))
  end.

(** The body of the loop of such a stage. *)
Definition sourceBody (lib : GoLib) (l : Loader) (src : fieldData -> option string)
    (field : fieldData) (s : Store) : Store * ctl :=
  match src field with
  | None => (s, Continue)
  | Some v => check (setFieldData lib l field v s)
  end.

(** The raw string of a leaf, coerced to the kind of the leaf. *)
Definition coerced (lib : GoLib) (src : fieldData -> option string)
    (fd : fieldData) : option reflect.Val :=
  match src fd with
  | Some raw => coerce lib (reflect.Typ (Field fd)) raw
  | None => None
  end.

(** The record once every leaf that has a raw string holds it coerced. *)
Definition withSource (lib : GoLib) (src : fieldData -> option string)
    (fds : list fieldData) (s : Store) : Store :=
  foldl (fun s fd =>
           match coerced lib src fd with
           | Some v => <[locOf fd := v]> s
           | None => s
           end) s fds.

(** Every raw string a source has for a leaf of [fds] is one the coercion
    of the kind of the leaf accepts. *)
Definition acceptedSource (lib : GoLib) (src : fieldData -> option string)
    (fds : list fieldData) : Prop :=
  forall fd raw, fd ∈ fds -> src fd = Some raw ->
                 is_Some (coerce lib (reflect.Typ (Field fd)) raw).

(** The raw string of a stage when the stage is enabled. *)
Definition enabledSource (lib : GoLib) (w : World) (l : Loader) (st : Stage)
    (fd : fieldData) : option string :=
  if enabled (config l) st then stageSource lib w l st fd else None.

(** The raw string that decides a leaf: that of the flag, else that of
    the environment variable, else the default, among the enabled stages. *)
Definition resolved (lib : GoLib) (w : World) (l : Loader) (fd : fieldData)
  : option string :=
  match enabledSource lib w l Flags fd with
  | Some raw => Some raw
  | None =>
      match enabledSource lib w l Environment fd with
      | Some raw => Some raw
      | None => enabledSource lib w l Defaults fd
      end
  end.

(** ** Flag names, as environment keys above *)

(** The prefix after construction: a non-empty prefix followed by ["."]. *)
Definition normalizedFlagPrefix (cfg : LoaderConfig) : string :=
  if String.eqb (FlagPrefix cfg) "" then "" else FlagPrefix cfg ++ ".".

(** lowercase(prefix + dotted name) *)
Definition flagName (lib : GoLib) (cfg : LoaderConfig) (dotted : string) : string :=
  strings.ToLower lib (normalizedFlagPrefix cfg ++ dotted).

(** A world whose flag set answers for the given names only. *)
Definition onlyFlags (names : list string) (w : World) : World :=
  {| Open := Open w;
     LookupEnv := LookupEnv w;
     flagLookup := fun k => if existsb (String.eqb k) names then flagLookup w k else None |}.

(** The kinds [settersByKind] has a setter for. *)
Definition supportedKind (k : reflect.Kind) : bool :=
  match k with
  | reflect.Bool | reflect.String
  | reflect.Int | reflect.Int8 | reflect.Int16 | reflect.Int32 | reflect.Int64
  | reflect.Uint | reflect.Uint8 | reflect.Uint16 | reflect.Uint32 | reflect.Uint64
  | reflect.Float32 | reflect.Float64 => true
  | _ => false
  end.

(** The kind of a leaf. *)
Definition kindOf (fd : fieldData) : reflect.Kind :=
  reflect.KindOf (reflect.Typ (Field fd)).

(** A process in whose directory the files [files] exist, with the
    environment variables [vars] and the flags [flags]. *)
Definition sampleWorld (files vars flags : list (string * string)) : World :=
  let get (table : list (string * string)) (key : string) : option string :=
    match find (fun p => String.eqb (fst p) key) table with
    | Some p => Some (snd p)
    | None => None
    end in
  {| Open := fun name =>
       match get files name with
       | Some contents => Val contents
       | None => Err (PathError "open" name "no such file or directory")
       end;
     LookupEnv := get vars;
     flagLookup := get flags |}.

(** The catalog of the README's record. *)
Definition MyConfigFields : list fieldData := getFieldsHelper MyConfig [] None.

(** [struct { Port int `default:"1111"`; Tags []string }] *)
Definition WithSlice : reflect.Type_ :=
  reflect.TStruct "WithSlice"
    [exported "Port" reflect.int [("default", "1111")];
     exported "Tags" (reflect.TOther "[]string" reflect.Slice) []].

(** The loader of the README without its files. *)
Definition readmeNoFiles : LoaderConfig :=
  {| UseDefaults := true; UseFile := true; UseEnv := true; UseFlag := true;
     EnvPrefix := "APP"; FlagPrefix := "app"; Files := [] |}.

(** ** What the catalog holds *)

(** A descriptor of a named group on the way to a leaf: an exported
    field of struct type that is not embedded, below such groups only. *)
Fixpoint groupDescriptor (g : fieldData) : Prop :=
  CanSet (Field g) = true
  /\ reflect.Anonymous (Field g) = false
  /\ (exists id fs, reflect.Typ (Field g) = reflect.TStruct id fs)
  /\ Name g = reflect.Name (Field g)
  /\ match Parent g with
     | None => True
     | Some p => groupDescriptor p
     end.

Definition groupChain (parent : option fieldData) : Prop :=
  match parent with
  | None => True
  | Some p => groupDescriptor p
  end.

(** A descriptor of a leaf: an exported field whose type is not a struct,
    with the name and the [default] tag of the field, a value of the type
    of the field, below named groups only. *)
Definition leafDescriptor (fd : fieldData) : Prop :=
  CanSet (Field fd) = true
  /\ (exists id k, reflect.Typ (Field fd) = reflect.TOther id k)
  /\ Name fd = reflect.Name (Field fd)
  /\ DefaultValue fd = reflect.Get (reflect.Tag (Field fd)) defaultValueTag
  /\ wellTyped fd
  /\ groupChain (Parent fd).

(** A file extension without its dot: no ['.'] and no ['/'] in it. *)
Definition plainExt (x : string) : bool :=
  Bytes.all (fun c => negb (Ascii.eqb c "." || Ascii.eqb c "/")) x.

(** [struct { secret string; Inner struct { Host string; port int } }]:
    fields that are not exported, at the root and in a group. *)
Definition WithPrivate : reflect.Type_ :=
  reflect.TStruct "WithPrivate"
    [reflect.mkStructField "secret" "main" reflect.string_ [("default", "s")] false;
     exported "Inner"
       (reflect.TStruct "Inner"
          [exported "Host" reflect.string_ [("default", "localhost")];
           reflect.mkStructField "port" "main" reflect.int [("default", "80")] false]) []].

(** The loader of the README with its first file only. *)
Definition readmeFirstFile : LoaderConfig :=
  {| UseDefaults := true; UseFile := true; UseEnv := true; UseFlag := true;
     EnvPrefix := "APP"; FlagPrefix := "app"; Files := ["file.json"] |}.

(** A loader of one file below a directory with a dot in its name. *)
Definition jsonInEtc : LoaderConfig :=
  {| UseDefaults := false; UseFile := true; UseEnv := false; UseFlag := false;
     EnvPrefix := ""; FlagPrefix := ""; Files := ["/etc/app.d/conf.JSON"] |}.

(** The raw string that overrides what the file stage left at a leaf:
    that of the flag, else that of the environment variable, among the
    enabled stages. *)
Definition overriding (lib : GoLib) (w : World) (l : Loader) (fd : fieldData)
  : option string :=
  match enabledSource lib w l Flags fd with
  | Some raw => Some raw
  | None => enabledSource lib w l Environment fd
  end.

(** The sample library with a decoder that finds [port: 2222] in every
    file and writes it to the first field of the record. *)
Definition port2222Lib : GoLib :=
  {| unicodeToUpper := unicodeToUpper sampleLib;
     unicodeToLower := unicodeToLower sampleLib;
     parseFloat := parseFloat sampleLib;
     toFloat32 := toFloat32 sampleLib;
     fracNanos := fracNanos sampleLib;
     decode := fun _ _ _ s => (<[[0%nat] := reflect.VInt 2222]> s, None) |}.
(** * Properties *)

(** ** The field catalog *)

Lemma getFieldsHelper_struct id fs loc parent :
  getFieldsHelper (reflect.TStruct id fs) loc parent = getFieldsLoop loc parent fs 0.
Proof.
  simpl. generalize 0%nat. induction fs as [|f fs IH]; intros i; [reflexivity|].
  simpl. rewrite IH. reflexivity.
Qed.

(** Induction on a type and the types of its fields. *)
Lemma Type_ind' (P : reflect.Type_ -> Prop) :
  (forall id k, P (reflect.TOther id k)) ->
  (forall id fs, Forall (fun f => P (reflect.Typ f)) fs -> P (reflect.TStruct id fs)) ->
  forall t, P t.
Proof.
  intros Hother Hstruct.
  fix IH 1. intros [id k | id fs].
  - apply Hother.
  - apply Hstruct. induction fs as [|f fs IHfs]; constructor.
    + apply IH.
    + exact IHfs.
Qed.


Lemma leafSegments_struct id fs :
  leafSegments (reflect.TStruct id fs) = leafSegmentsLoop fs.
Proof.
  simpl. induction fs as [|f fs IH]; [reflexivity|].
  simpl. rewrite IH. reflexivity.
Qed.

Lemma append_assoc (a b c : string) : (a ++ b) ++ c = a ++ (b ++ c).
Proof.
  induction a as [|x a IH]; [reflexivity|].
  change (String x ((a ++ b) ++ c) = String x (a ++ (b ++ c))).
  f_equal. exact IH.
Qed.

Lemma join_snoc sep (l : list string) x :
  l <> [] -> join sep (l ++ [x])%list = join sep l ++ sep ++ x.
Proof.
  induction l as [|y l IH]; [congruence|]. intros _.
  destruct l as [|z l]; [reflexivity|].
  change (join sep ((y :: z :: l) ++ [x])) with (y ++ sep ++ join sep ((z :: l) ++ [x])).
  rewrite IH by congruence.
  change (join sep (y :: z :: l)) with (y ++ sep ++ join sep (z :: l)).
  now rewrite !append_assoc.
Qed.

Lemma fieldData_induction (P : fieldData -> Prop) :
  (forall f, Parent f = None -> P f) ->
  (forall f p, Parent f = Some p -> P p -> P f) ->
  forall f, P f.
Proof.
  intros Hroot Hstep. fix IH 1. intros f.
  destruct f as [[p|] n fld v d].
  - apply (Hstep _ p); [reflexivity | apply IH].
  - apply Hroot. reflexivity.
Qed.

Lemma segments_nonempty f : segments f <> [].
Proof.
  destruct f as [[p|] n fld v d]; simpl; [|congruence].
  intros H. apply app_eq_nil in H. destruct H; congruence.
Qed.

Lemma FullName_segments f : FullName_ f = join "." (segments f).
Proof.
  induction f as [f Hf | f p Hf IH] using fieldData_induction.
  - destruct f as [par n fld v d]; simpl in *. now rewrite Hf.
  - destruct f as [par n fld v d]; simpl in *. rewrite Hf.
    rewrite join_snoc by apply segments_nonempty. now rewrite IH.
Qed.

Lemma FullName_child parent n fld v d :
  FullName_ (mkFieldData parent n fld v d) = dottedName parent [n].
Proof.
  rewrite FullName_segments. unfold dottedName.
  destruct parent; reflexivity.
Qed.

Lemma getFieldsLoop_names loc parent fs :
  Forall (fun f => forall loc parent,
            map FullName_ (getFieldsHelper (reflect.Typ f) loc parent)
            = map (dottedName parent) (leafSegments (reflect.Typ f))) fs ->
  forall i, map FullName_ (getFieldsLoop loc parent fs i)
            = map (dottedName parent) (leafSegmentsLoop fs).
Proof.
  induction 1 as [|f fs Hf _ IH]; intros i; [reflexivity|].
  cbn -[FullName_ dottedName getFieldsHelper leafSegments].
  destruct (CanSet f); cbn -[FullName_ dottedName getFieldsHelper leafSegments]; [|apply IH].
  destruct (reflect.Typ f) as [id k | id gs] eqn:Ht.
  - cbn -[FullName_ dottedName]. rewrite IH, FullName_child. reflexivity.
  - rewrite !map_app, IH, Hf. f_equal.
    destruct (reflect.Anonymous f); [reflexivity|].
    rewrite map_map. apply map_ext. intros segs.
    unfold dottedName. simpl.
    destruct parent as [p|]; simpl; [|reflexivity].
    now rewrite <- app_assoc.
Qed.

(** C5. For every struct type, the dotted names of the catalog built
    below [parent] are the names on the way to each leaf joined with
    dots: an embedded group adds no segment to the names of its leaves,
    a named group prefixes its own name. *)
Theorem embedded_group_adds_no_segment (t : reflect.Type_) (loc : reflect.Loc)
    (parent : option fieldData) :
  map FullName_ (getFieldsHelper t loc parent)
  = map (dottedName parent) (leafSegments t).
Proof.
  revert loc parent. induction t as [id k | id fs IH] using Type_ind';
    intros loc parent; [reflexivity|].
  rewrite getFieldsHelper_struct, leafSegments_struct.
  apply getFieldsLoop_names. exact IH.
Qed.

(** A field [Name] of a group embedded at the root is named ["Name"], and
    the leaves of the named group [Auth] are named ["Auth.User"] and
    ["Auth.Pass"]. *)
Example MyConfig_names :
  (fun r => match r with inr fds => map FullName_ fds | inl _ => [] end)
    (getFields (Pointer MyConfig))
  = ["Port"; "Auth.User"; "Auth.Pass"; "Name"].
Proof. reflexivity. Qed.

(** ** Loops *)

Lemma rangeLoop_ext_in {A} (f g : A -> Store -> Store * ctl) xs :
  (forall x, In x xs -> forall s, f x s = g x s) ->
  forall s, rangeLoop f xs s = rangeLoop g xs s.
Proof.
  induction xs as [|x xs IH]; intros H s; [reflexivity|].
  simpl. rewrite (H x) by (left; reflexivity).
  destruct (g x s) as [s' [| |o]]; try reflexivity.
  apply IH. intros y Hy. apply H. right. exact Hy.
Qed.

(** ** Names of environment variables *)

Lemma existsb_eqb_In k keys : In k keys -> existsb (String.eqb k) keys = true.
Proof.
  intros H. apply existsb_exists. exists k. split; [exact H | apply String.eqb_refl].
Qed.

Lemma NewLoader_EnvPrefix cfg :
  EnvPrefix (config (NewLoader cfg)) = normalizedEnvPrefix cfg.
Proof.
  unfold NewLoader, normalizedEnvPrefix.
  destruct (String.eqb (EnvPrefix cfg) "") eqn:E; cbn;
    destruct (String.eqb (FlagPrefix cfg) ""); cbn; try reflexivity;
    apply String.eqb_eq in E; exact E.
Qed.

(** C6. The key the environment stage looks up for a leaf is the
    uppercase of the prefix, followed by ["_"] when it is not empty, and
    of the dotted name with every dot replaced by an underscore; the
    stage reads the environment at these keys only; with prefix ["APP"]
    the leaf [Auth.User] has the key ["APP_AUTH_USER"]. *)
Theorem env_key_of_leaf (lib : GoLib) (cfg : LoaderConfig) :
  (forall name, getEnvName lib (NewLoader cfg) name = envKey lib cfg name)
  /\ (forall w fds s,
        let l := {| config := config (NewLoader cfg); fields := fds |} in
        loadEnvironment lib
          (onlyEnvKeys (map (fun fd => envKey lib cfg (FullName (Some fd))) fds) w) l s
        = loadEnvironment lib w l s)
  /\ getEnvName lib (NewLoader readmeConfig) "Auth.User" = "APP_AUTH_USER".
Proof.
  assert (Hname : forall name, getEnvName lib (NewLoader cfg) name = envKey lib cfg name).
  { intros name. unfold getEnvName, envKey. now rewrite NewLoader_EnvPrefix. }
  split; [exact Hname|]. split; [|reflexivity].
  intros w fds s l. unfold loadEnvironment. f_equal.
  apply rangeLoop_ext_in. intros fd Hfd s'.
  cbn [fields LookupEnv onlyEnvKeys l].
  replace (getEnvName lib l (FullName (Some fd)))
    with (envKey lib cfg (FullName (Some fd))) by (symmetry; apply Hname).
  rewrite existsb_eqb_In; [reflexivity|].
  apply in_map_iff. exists fd. split; [reflexivity | exact Hfd].
Qed.

(** ** The file stage *)

(** C9. With an empty list of files the file stage returns [nil] and
    leaves the store as it was; [DefaultConfig] is such a configuration,
    with the file stage enabled. *)
Theorem loadFromFile_no_files (lib : GoLib) (w : World) (l : Loader)
    (dst : Target) (s : Store) :
  Files (config l) = [] ->
  loadFromFile lib w l dst s = (s, Return None)
  /\ Files (config (NewLoader DefaultConfig)) = []
  /\ UseFile (config (NewLoader DefaultConfig)) = true.
Proof.
  intros H. unfold loadFromFile. rewrite H. repeat split.
Qed.

Lemma loadFromFile_no_files_witness :
  loadFromFile sampleLib (worldWithFiles []) (NewLoader DefaultConfig)
    (Pointer MyConfig) ∅ = (∅, Return None)
  /\ Files (config (NewLoader DefaultConfig)) = []
  /\ UseFile (config (NewLoader DefaultConfig)) = true.
Proof.
  apply (loadFromFile_no_files sampleLib (worldWithFiles []) (NewLoader DefaultConfig)
           (Pointer MyConfig) ∅).
  reflexivity.
Defined.

(** ** Numbers *)

Lemma Wrap_int_id bits n :
  0 < bits -> - 2 ^ (bits - 1) <= n < 2 ^ (bits - 1) -> Wrap.int bits n = n.
Proof.
  intros Hb Hn. unfold Wrap.int. cbv zeta.
  assert (Hp : 2 ^ bits = 2 * 2 ^ (bits - 1)).
  { rewrite <- Z.pow_succ_r by lia. f_equal. lia. }
  assert (0 < 2 ^ (bits - 1)) by (apply Z.pow_pos_nonneg; lia).
  destruct (Z.le_gt_cases 0 n) as [Hpos|Hneg].
  - rewrite Z.mod_small by lia.
    destruct (Z.ltb_spec n (2 ^ (bits - 1))); lia.
  - assert (Hm : n mod 2 ^ bits = n + 2 ^ bits).
    { replace n with (n + 2 ^ bits + (-1) * 2 ^ bits) at 1 by lia.
      rewrite Z.mod_add by lia. apply Z.mod_small. lia. }
    rewrite Hm.
    destruct (Z.ltb_spec (n + 2 ^ bits) (2 ^ (bits - 1))); lia.
Qed.

Lemma Wrap_uint_id bits n : 0 <= n < 2 ^ bits -> Wrap.uint bits n = n.
Proof. intros Hn. unfold Wrap.uint. now apply Z.mod_small. Qed.

(** What the digit loop returns is between its start and [maxVal]. *)
Lemma parseDigits_bound s base cutoff maxVal :
  forall n m, strconv.parseDigits s base cutoff maxVal n = inr m ->
              0 <= n <= maxVal -> 0 <= m <= maxVal.
Proof.
  induction s as [|c s IH]; intros n m H Hn; simpl in H.
  - inversion H; subst. exact Hn.
  - destruct (strconv.digitVal c) as [d|]; [|discriminate].
    destruct (base <=? d); [discriminate|].
    destruct (cutoff <=? n); [discriminate|].
    set (n1 := ((n * base) mod 2 ^ 64 + d) mod 2 ^ 64) in *.
    destruct (n1 <? (n * base) mod 2 ^ 64) eqn:E1; [discriminate|].
    destruct (maxVal <? n1) eqn:E2; [discriminate|]. simpl in H.
    apply (IH _ _ H). apply Z.ltb_ge in E2. split; [|exact E2].
    subst n1. apply Z.mod_pos_bound. lia.
Qed.

Lemma parseUint_bound s bits m :
  0 < bits -> strconv.parseUint s 10 bits = inr m -> 0 <= m < 2 ^ bits.
Proof.
  intros Hb H. unfold strconv.parseUint in H.
  destruct (String.eqb s ""); [discriminate|].
  destruct (Z.eqb_spec bits 0) as [->|_]; [lia|].
  apply parseDigits_bound in H.
  - lia.
  - assert (0 < 2 ^ bits) by (apply Z.pow_pos_nonneg; lia). lia.
Qed.

(** [ParseInt(s, 10, bits)] returns a number of [bits] bits. *)
Lemma ParseInt_range s bits n :
  0 < bits -> strconv.ParseInt s 10 bits = Val n ->
  - 2 ^ (bits - 1) <= n < 2 ^ (bits - 1).
Proof.
  intros Hb H. unfold strconv.ParseInt in H.
  destruct s as [|c rest]; [discriminate|].
  destruct (strconv.parseUint _ 10 bits) as [[|]|un] eqn:Eu; try discriminate.
  apply parseUint_bound in Eu; [|exact Hb].
  destruct (Z.eqb_spec bits 0) as [->|_]; [lia|].
  assert (0 < 2 ^ (bits - 1)) by (apply Z.pow_pos_nonneg; lia).
  destruct (Ascii.eqb c "-"); simpl in H.
  - destruct (Z.ltb_spec (2 ^ (bits - 1)) un); [discriminate|].
    inversion H; subst. lia.
  - destruct (Z.leb_spec (2 ^ (bits - 1)) un); [discriminate|].
    inversion H; subst. lia.
Qed.

Lemma ParseUint_range s bits n :
  0 < bits -> strconv.ParseUint s 10 bits = Val n -> 0 <= n < 2 ^ bits.
Proof.
  intros Hb H. unfold strconv.ParseUint in H.
  destruct (strconv.parseUint s 10 bits) as [|m] eqn:E; [discriminate|].
  inversion H; subst. now apply parseUint_bound in E.
Qed.

(** ** Durations: the loop of [ParseDuration] has turns enough *)

Lemma leadingInt_length s :
  forall x v r, time.leadingInt s x = Some (v, r) ->
                (String.length r <= String.length s)%nat.
Proof.
  induction s as [|c s IH]; intros x v r H; simpl in H.
  - inversion H; subst. reflexivity.
  - destruct (Bytes.isDigit c); simpl in H.
    + destruct (2 ^ 63 / 10 <? x); [discriminate|].
      destruct (2 ^ 63 <? _); [discriminate|].
      apply IH in H. simpl. lia.
    + inversion H; subst. reflexivity.
Qed.

Lemma leadingFraction_length s :
  forall x scale o f scale' r,
    time.leadingFraction s x scale o = (f, scale', r) ->
    (String.length r <= String.length s)%nat.
Proof.
  induction s as [|c s IH]; intros x scale o f scale' r H; simpl in H.
  - inversion H; subst. reflexivity.
  - destruct (Bytes.isDigit c); simpl in H.
    + destruct o; [apply IH in H; simpl; lia|].
      destruct ((2 ^ 63 - 1) / 10 <? x); [apply IH in H; simpl; lia|].
      destruct (2 ^ 63 <? _); apply IH in H; simpl; lia.
    + inversion H; subst. reflexivity.
Qed.

Lemma fraction_length s f scale r post :
  time.fraction s = (f, scale, r, post) -> (String.length r <= String.length s)%nat.
Proof.
  unfold time.fraction. destruct s as [|c t]; [intros H; inversion H; subst; reflexivity|].
  destruct (Ascii.eqb c ".").
  - destruct (time.leadingFraction t 0 1 false) as [[f' scale'] t'] eqn:E.
    intros H. inversion H; subst. apply leadingFraction_length in E. simpl. lia.
  - intros H. inversion H; subst. reflexivity.
Qed.

Lemma unitSpan_length s :
  forall u r, time.unitSpan s = (u, r) ->
              String.length s = (String.length u + String.length r)%nat.
Proof.
  induction s as [|c s IH]; intros u r H; simpl in H.
  - inversion H; subst. reflexivity.
  - destruct (Ascii.eqb c "." || Bytes.isDigit c).
    + inversion H; subst. reflexivity.
    + destruct (time.unitSpan s) as [u' r'] eqn:E. inversion H; subst.
      simpl. f_equal. now apply IH.
Qed.

(** A term that parses is followed by a shorter string. *)
Lemma parseTerm_shorter lib orig s v r :
  time.parseTerm lib orig s = Val (v, r) -> (String.length r < String.length s)%nat.
Proof.
  unfold time.parseTerm. destruct (negb (time.startsNumber s)); [discriminate|].
  destruct (time.leadingInt s 0) as [[v0 s1]|] eqn:E1; [|discriminate].
  destruct (time.fraction s1) as [[[f scale] s2] post] eqn:E2.
  destruct (negb _ && negb post); [discriminate|].
  destruct (time.unitSpan s2) as [u s3] eqn:E3.
  destruct (String.eqb_spec u "") as [|Hu]; [discriminate|].
  destruct (time.unitMap u) as [unit|]; [|discriminate].
  destruct (2 ^ 63 / unit <? v0); [discriminate|].
  destruct ((0 <? f) && _); [discriminate|].
  intros H. inversion H; subst.
  apply leadingInt_length in E1. apply fraction_length in E2.
  apply unitSpan_length in E3.
  destruct u as [|c u]; [congruence|]. simpl in E3. lia.
Qed.

(** The loop gives the same result with any number of turns that is at
    least the length of the string: it never runs out of turns. *)
Lemma parseTerms_fuel lib orig :
  forall n s d fuel fuel',
    (String.length s <= n)%nat ->
    (String.length s <= fuel)%nat -> (String.length s <= fuel')%nat ->
    time.parseTerms lib fuel orig s d = time.parseTerms lib fuel' orig s d.
Proof.
  induction n as [|n IH]; intros s d fuel fuel' Hn Hf Hf';
    destruct s as [|c s];
    try (destruct fuel, fuel'; reflexivity); simpl in Hn, Hf, Hf'; [lia|].
  destruct fuel as [|fuel]; [lia|]. destruct fuel' as [|fuel']; [lia|].
  cbn [time.parseTerms].
  destruct (time.parseTerm lib orig (String c s)) as [[v r]|e] eqn:E; [|reflexivity].
  apply parseTerm_shorter in E. simpl in E.
  destruct (2 ^ 63 <? _); [reflexivity|].
  apply IH; lia.
Qed.

(** ** Setters *)

Lemma Type_eqb_Duration id k :
  reflect.Type_eqb (reflect.TOther id k) reflect.Duration = true
  <-> reflect.TOther id k = reflect.Duration.
Proof.
  unfold reflect.Duration. simpl. split.
  - intros H. apply andb_prop in H as [Hid Hk].
    apply String.eqb_eq in Hid. apply bool_decide_eq_true in Hk. congruence.
  - intros H. inversion H; subst. reflexivity.
Qed.

Section Setters.

Context (lib : GoLib) (l : Loader).

Lemma setInt64_Duration fd value s :
  reflect.Typ (Field fd) = reflect.Duration -> wellTyped fd ->
  setFieldData lib l fd value s
  = match time.ParseDuration lib value with
    | Err err => (s, Return (Some err))
    | Val d => (<[reflect.ptr (Value fd) := reflect.VInt d]> s, Return None)
    end.
Proof.
  intros Ht Hw. unfold setFieldData, reflect.ValueKind. rewrite Hw, Ht.
  cbn [reflect.KindOf reflect.Duration settersByKind]. unfold setInt64.
  rewrite Ht. change (reflect.Type_eqb reflect.Duration reflect.Duration) with true.
  cbv iota. destruct (time.ParseDuration lib value) as [d|err]; [|reflexivity].
  unfold reflect.SetDuration. rewrite Hw, Ht. reflexivity.
Qed.

Lemma setInt64_other fd id value s :
  reflect.Typ (Field fd) = reflect.TOther id reflect.Int64 -> wellTyped fd ->
  id <> "time.Duration" ->
  setFieldData lib l fd value s
  = match strconv.ParseInt value 10 64 with
    | Err err => (s, Return (Some err))
    | Val n => (<[reflect.ptr (Value fd) := reflect.VInt n]> s, Return None)
    end.
Proof.
  intros Ht Hw Hid. unfold setFieldData, reflect.ValueKind. rewrite Hw, Ht.
  cbn [reflect.KindOf settersByKind]. unfold setInt64. rewrite Ht.
  destruct (reflect.Type_eqb (reflect.TOther id reflect.Int64) reflect.Duration) eqn:E.
  { apply Type_eqb_Duration in E. inversion E. congruence. }
  unfold setInt. destruct (strconv.ParseInt value 10 64) as [n|err] eqn:Ep; [|reflexivity].
  unfold reflect.SetInt, reflect.ValueKind. rewrite Hw, Ht.
  cbn [reflect.KindOf reflect.intBits stored].
  rewrite Wrap_int_id; [reflexivity | lia |].
  now apply ParseInt_range in Ep.
Qed.

End Setters.

(** C4. A field of type [time.Duration] is set by parsing the raw string
    as a duration: ["5s"] stores five seconds, and ["5"], which the
    integer parser reads as 5, is refused for its missing unit, the
    duration branch coming first. *)
Theorem duration_field_parses_duration (lib : GoLib) (l : Loader)
    (fd : fieldData) (s : Store) :
  reflect.Typ (Field fd) = reflect.Duration -> wellTyped fd ->
  (forall value,
      setFieldData lib l fd value s
      = match time.ParseDuration lib value with
        | Err err => (s, Return (Some err))
        | Val d => (<[reflect.ptr (Value fd) := reflect.VInt d]> s, Return None)
        end)
  /\ setFieldData lib l fd "5s" s
     = (<[reflect.ptr (Value fd) := reflect.VInt (5 * time.Second)]> s, Return None)
  /\ setFieldData lib l fd "5" s = (s, Return (Some (DurationError MissingUnit "5")))
  /\ strconv.ParseInt "5" 10 64 = Val 5.
Proof.
  intros Ht Hw. repeat split.
  - intros value. now apply setInt64_Duration.
  - rewrite setInt64_Duration by assumption. reflexivity.
  - rewrite setInt64_Duration by assumption. reflexivity.
Qed.

Lemma duration_field_parses_duration_witness :
  let fd := leafAt 0 "Timeout" reflect.Duration [] in
  setFieldData sampleLib (NewLoader DefaultConfig) fd "5s" ∅
  = (<[[0%nat] := reflect.VInt 5000000000]> ∅, Return None).
Proof.
  intros fd.
  exact (proj1 (proj2 (duration_field_parses_duration sampleLib (NewLoader DefaultConfig)
                         fd ∅ eq_refl eq_refl))).
Defined.

(** C10. A field of a named type over [int64] other than
    [time.Duration] is set by the integer parser, base 10: ["5s"] is a
    syntax error for it. *)
Theorem named_int64_parses_integer (lib : GoLib) (l : Loader)
    (fd : fieldData) (id : string) (s : Store) :
  reflect.Typ (Field fd) = reflect.TOther id reflect.Int64 -> wellTyped fd ->
  id <> "time.Duration" ->
  (forall value,
      setFieldData lib l fd value s
      = match strconv.ParseInt value 10 64 with
        | Err err => (s, Return (Some err))
        | Val n => (<[reflect.ptr (Value fd) := reflect.VInt n]> s, Return None)
        end)
  /\ setFieldData lib l fd "5s" s
     = (s, Return (Some (NumError "ParseInt" "5s" ErrSyntax))).
Proof.
  intros Ht Hw Hid. split.
  - intros value. now apply (setInt64_other lib l fd id).
  - rewrite (setInt64_other lib l fd id) by assumption. reflexivity.
Qed.

Lemma named_int64_parses_integer_witness :
  let fd := leafAt 0 "Timeout" (reflect.TOther "main.Millis" reflect.Int64) [] in
  setFieldData sampleLib (NewLoader DefaultConfig) fd "5s" ∅
  = (∅, Return (Some (NumError "ParseInt" "5s" ErrSyntax))).
Proof.
  intros fd.
  refine (proj2 (named_int64_parses_integer sampleLib (NewLoader DefaultConfig)
                   fd "main.Millis" ∅ eq_refl eq_refl _)).
  intros H. discriminate H.
Defined.

(** What the signed setter does with a string that fits 64 bits: the
    number is stored cut to the width of the field, without an error. *)
Lemma setInt_stores_wrapped lib l fd raw n bits s :
  wellTyped fd ->
  reflect.intBits (reflect.KindOf (reflect.Typ (Field fd))) = Some bits ->
  reflect.KindOf (reflect.Typ (Field fd)) <> reflect.Int64 ->
  strconv.ParseInt raw 10 64 = Val n ->
  setFieldData lib l fd raw s
  = (<[locOf fd := reflect.VInt (Wrap.int bits n)]> s, Return None).
Proof.
  intros Hw Hb Hk Hp. unfold setFieldData, locOf, reflect.ValueKind. rewrite Hw.
  destruct (reflect.KindOf (reflect.Typ (Field fd))) eqn:Ek; try discriminate;
    try congruence; cbn [settersByKind]; unfold setInt; rewrite Hp;
    unfold reflect.SetInt, reflect.ValueKind; rewrite Hw, Ek, Hb; reflexivity.
Qed.

(** The same for the unsigned setter. *)
Lemma setUint_stores_wrapped lib l fd raw n bits s :
  wellTyped fd ->
  reflect.uintBits (reflect.KindOf (reflect.Typ (Field fd))) = Some bits ->
  reflect.KindOf (reflect.Typ (Field fd)) <> reflect.Uintptr ->
  strconv.ParseUint raw 10 64 = Val n ->
  setFieldData lib l fd raw s
  = (<[locOf fd := reflect.VUint (Wrap.uint bits n)]> s, Return None).
Proof.
  intros Hw Hb Hk Hp. unfold setFieldData, locOf, reflect.ValueKind. rewrite Hw.
  destruct (reflect.KindOf (reflect.Typ (Field fd))) eqn:Ek; try discriminate;
    try congruence; cbn [settersByKind]; unfold setUint; rewrite Hp;
    unfold reflect.SetUint, reflect.ValueKind; rewrite Hw, Ek, Hb; reflexivity.
Qed.


(** ** Files *)

(** Every path through the body of the loop of [loadFromFile] leaves the
    loop: the stage is decided by the first file alone. *)
Lemma loadFromFile_first_file_only lib w cfg fds file rest dst s :
  Files cfg = file :: rest ->
  loadFromFile lib w {| config := cfg; fields := fds |} dst s
  = loadFromFile lib w
      {| config := {| UseDefaults := UseDefaults cfg; UseFile := UseFile cfg;
                      UseEnv := UseEnv cfg; UseFlag := UseFlag cfg;
                      EnvPrefix := EnvPrefix cfg; FlagPrefix := FlagPrefix cfg;
                      Files := [file] |};
         fields := fds |} dst s.
Proof.
  intros H. unfold loadFromFile. cbn [config Files]. rewrite H.
  cbn [rangeLoop]. destruct (Open w file) as [f|err]; [|reflexivity].
  destruct (formatOf _); [|reflexivity].
  destruct (decode lib _ f dst s) as [s' [err|]]; reflexivity.
Qed.

(** A first file that cannot be opened ends the stage with the error of
    [os.Open], whatever files follow. *)
Lemma loadFromFile_open_error lib w cfg fds file rest dst s err :
  Files cfg = file :: rest ->
  Open w file = Err err ->
  loadFromFile lib w {| config := cfg; fields := fds |} dst s = (s, Return (Some err)).
Proof.
  intros Hf Ho. unfold loadFromFile. cbn [config]. rewrite Hf.
  cbn [rangeLoop]. rewrite Ho. reflexivity.
Qed.

(** C2. With the files ["file.json"; "ouch.yaml"] of the README, of
    which only the second exists, the file stage returns the error of
    opening the first and decodes nothing. *)
Theorem missing_first_file_fails_file_stage (lib : GoLib) (dst : Target) (s : Store) :
  loadFromFile lib (worldWithFiles [("ouch.yaml", "port: 2222")])
    (NewLoader readmeConfig) dst s
  = (s, Return (Some (PathError "open" "file.json" "no such file or directory"))).
Proof. reflexivity. Qed.

(** A first file that exists and does not decode fails the stage with
    the decoder's error, whatever files follow. *)
Lemma malformed_first_file_fails_file_stage lib w cfg fds file rest dst s f s' err :
  Files cfg = file :: rest ->
  Open w file = Val f ->
  formatOf (strings.ToLower lib (filepath.Ext file)) = Some JSON ->
  decode lib JSON f dst s = (s', Some err) ->
  loadFromFile lib w {| config := cfg; fields := fds |} dst s
  = (s', Return (Some (FileParsingError err))).
Proof.
  intros Hf Ho Hfmt Hd. unfold loadFromFile. cbn [config]. rewrite Hf.
  cbn [rangeLoop]. rewrite Ho, Hfmt, Hd. reflexivity.
Qed.

(** ** The target of [Load] *)

(** C8. [getFields] has no error to return: on a pointer to a struct it
    builds the catalog, on anything else it panics inside [reflect], and
    [Load] panics with it before any stage. *)
Theorem getFields_panics_on_other_targets (lib : GoLib) (w : World) (l : Loader)
    (x : Target) (s : Store) :
  match x with
  | Pointer (reflect.TStruct _ _) => exists fds, getFields x = inr fds
  | _ => exists p, getFields x = inl p /\ Load lib w l x s = (l, (s, Panic p))
  end.
Proof.
  destruct x as [|t|t|[id k|id fs]]; cbn; eauto.
Qed.

(** A record passed by value, not by pointer. *)
Example Load_struct_by_value lib w l s :
  Load lib w l (Direct MyConfig) s
  = (l, (s, Panic (reflect.ValueError "reflect.Value.Elem" reflect.Struct))).
Proof. reflexivity. Qed.

(** ** The stages of [Load] *)

Lemma Load_runStages lib w l into s fds :
  getFields into = inr fds ->
  let l' := {| config := config l; fields := fds |} in
  Load lib w l into s
  = (l', runStages (map (runStage lib w l' into)
                      (List.filter (enabled (config l)) stageOrder)) s).
Proof.
  intros H l'. unfold Load. rewrite H. fold l'. f_equal.
  unfold stageOrder, andThen. change (config l') with (config l).
  cbn [List.filter enabled].
  destruct (UseDefaults (config l)), (UseFile (config l)),
    (UseEnv (config l)), (UseFlag (config l));
    cbn [List.filter enabled map runStage runStages];
    repeat match goal with
      | |- context [loadDefaults lib ?l ?s] =>
          destruct (loadDefaults lib l s) as [? [[?|]|?]]
      | |- context [loadFromFile lib w ?l ?i ?s] =>
          destruct (loadFromFile lib w l i s) as [? [[?|]|?]]
      | |- context [loadEnvironment lib w ?l ?s] =>
          destruct (loadEnvironment lib w l s) as [? [[?|]|?]]
      | |- context [loadFlags lib w ?l ?s] =>
          destruct (loadFlags lib w l s) as [? [[?|]|?]]
      end; reflexivity.
Qed.

Lemma runStages_first_failure pre st post s s1 s2 o :
  runStages pre s = (s1, Return None) -> st s1 = (s2, o) -> o <> Return None ->
  runStages (pre ++ st :: post) s = (s2, o).
Proof.
  revert s. induction pre as [|p pre IH]; intros s Hpre Hst Ho; simpl in *.
  - inversion Hpre; subst. rewrite Hst.
    destruct o as [[e|]|p]; [reflexivity | congruence | reflexivity].
  - destruct (p s) as [s' [[e|]|pn]]; try discriminate.
    now apply IH.
Qed.

Lemma runStages_all_succeed pre post s s1 :
  runStages pre s = (s1, Return None) ->
  runStages (pre ++ post) s = runStages post s1.
Proof.
  revert s. induction pre as [|p pre IH]; intros s Hpre; simpl in *.
  - now inversion Hpre.
  - destruct (p s) as [s' [[e|]|pn]]; try discriminate.
    now apply IH.
Qed.

(** A setter that does not succeed leaves the record as it was. *)
Lemma setFieldData_failure_unchanged lib l fd raw s s' o :
  setFieldData lib l fd raw s = (s', o) -> o <> Return None -> s' = s.
Proof.
  unfold setFieldData, reflect.ValueKind.
  destruct (reflect.KindOf (reflect.typ (Value fd))) eqn:Ek; cbn [settersByKind];
    try (intros H _; inversion H; reflexivity);
    unfold setBool, setString, setInt, setInt64, setInt, setUint, setFloat,
      reflect.SetBool, reflect.SetString, reflect.SetInt, reflect.SetUint,
      reflect.SetFloat, reflect.SetDuration, reflect.ValueKind;
    rewrite ?Ek; cbn [reflect.intBits reflect.uintBits stored];
    repeat match goal with
      | |- context [match ?x with _ => _ end] => destruct x
      end;
    intros H Ho; inversion H; subst; congruence.
Qed.

(** The loop over the leaves, cut at any leaf: a loop whose body never
    breaks runs the second part on what the first part left. *)
Lemma rangeLoop_app {A} (body : A -> Store -> Store * ctl) xs ys :
  (forall x s, snd (body x s) <> Break) ->
  forall s,
    rangeLoop body (xs ++ ys) s
    = match rangeLoop body xs s with
      | (s1, None) => rangeLoop body ys s1
      | r => r
      end.
Proof.
  intros Hb. induction xs as [|x xs IH]; intros s; [reflexivity|].
  cbn [rangeLoop app]. specialize (Hb x s).
  destruct (body x s) as [s1 [| |o]]; cbn in Hb; [apply IH | congruence | reflexivity].
Qed.

(** Inside the defaults stage nothing is rolled back either: when the
    leaves before [fd] are set and [fd] is refused, the stage ends with
    the error of [fd] and with the leaves before it set. *)
Lemma loadDefaults_first_failure lib cfg pre fd post s s1 s2 o :
  loadDefaults lib {| config := cfg; fields := pre |} s = (s1, Return None) ->
  setFieldData lib {| config := cfg; fields := (pre ++ fd :: post)%list |}
    fd (DefaultValue fd) s1 = (s2, o) ->
  o <> Return None ->
  loadDefaults lib {| config := cfg; fields := (pre ++ fd :: post)%list |} s = (s2, o).
Proof.
  unfold loadDefaults. cbn [fields]. intros Hpre Hfd Ho.
  rewrite rangeLoop_app.
  2:{ intros x s0. unfold setFieldData at 1.
      destruct (settersByKind _) as [setter|]; [|cbn; congruence].
      destruct (setter x (DefaultValue x) s0) as [s' [[e|]|p]]; cbn; congruence. }
  change (fun fd0 s0 => check (setFieldData lib {| config := cfg; fields := (pre ++ fd :: post)%list |}
                                 fd0 (DefaultValue fd0) s0))
    with (fun fd0 s0 => check (setFieldData lib {| config := cfg; fields := pre |}
                                 fd0 (DefaultValue fd0) s0)).
  destruct (rangeLoop _ pre s) as [s0 [o0|]] eqn:E; cbn [orReturn] in Hpre.
  - inversion Hpre; subst. cbn [orReturn].
    (* the body leaves the loop only with an outcome that is not [nil] *)
    exfalso. clear - E.
    revert s E. induction pre as [|x pre IH]; intros s E; cbn [rangeLoop] in E; [discriminate|].
    unfold setFieldData at 1 in E.
    destruct (settersByKind _) as [setter|].
    + destruct (setter x (DefaultValue x) s) as [s' [[e|]|p]]; cbn [check] in E;
        try (inversion E; discriminate). now apply IH in E.
    + cbn [check] in E. inversion E.
  - inversion Hpre; subst. cbn [rangeLoop].
    change (setFieldData lib {| config := cfg; fields := pre |} fd (DefaultValue fd) s1)
      with (setFieldData lib {| config := cfg; fields := (pre ++ fd :: post)%list |}
              fd (DefaultValue fd) s1).
    rewrite Hfd. destruct o as [[e|]|p]; [reflexivity | congruence | reflexivity].
Qed.

(** C7. [Load] runs the stages whose flag is true, in the order
    defaults, file, environment, flags, each on the store the one before
    left; when a stage does not succeed, [Load] ends with the outcome of
    that stage and with the store as that stage left it, and no later
    stage runs. *)
Theorem Load_runs_enabled_stages_in_order (lib : GoLib) (w : World) (l : Loader)
    (into : Target) (s : Store) (fds : list fieldData) :
  getFields into = inr fds ->
  let l' := {| config := config l; fields := fds |} in
  let stages := map (runStage lib w l' into)
                  (List.filter (enabled (config l)) stageOrder) in
  Load lib w l into s = (l', runStages stages s)
  /\ (forall pre st post s1 s2 o,
         stages = (pre ++ st :: post)%list ->
         runStages pre s = (s1, Return None) ->
         st s1 = (s2, o) -> o <> Return None ->
         Load lib w l into s = (l', (s2, o)))
  /\ (forall s', runStages stages s = (s', Return None) ->
                 Load lib w l into s = (l', (s', Return None))).
Proof.
  intros H l' stages.
  pose proof (Load_runStages lib w l into s fds H) as HL.
  subst l' stages. cbv zeta in HL.
  repeat split.
  - exact HL.
  - intros pre st post s1 s2 o Hs Hpre Hst Ho. rewrite HL, Hs. f_equal.
    now apply runStages_first_failure with (s1 := s1).
  - intros s' Hs. now rewrite HL, Hs.
Qed.

(** The README's loader in a directory without its files: the defaults
    are applied, the file stage fails, the defaults stay. *)
Lemma Load_runs_enabled_stages_in_order_witness :
  let l := NewLoader readmeConfig in
  let l' := {| config := config l; fields := getFieldsHelper MyConfig [] None |} in
  Load sampleLib (worldWithFiles []) l (Pointer MyConfig) ∅
  = (l', (<[[2%nat; 0%nat] := reflect.VString "base"]>
            (<[[1%nat; 1%nat] := reflect.VString "def-pass"]>
               (<[[1%nat; 0%nat] := reflect.VString "def-user"]>
                  (<[[0%nat] := reflect.VInt 1111]> ∅))),
          Return (Some (PathError "open" "file.json" "no such file or directory")))).
Proof.
  intros l l'.
  refine (proj1 (proj2 (Load_runs_enabled_stages_in_order sampleLib (worldWithFiles [])
                          l (Pointer MyConfig) ∅ _ eq_refl))
            [loadDefaults sampleLib l']
            (loadFromFile sampleLib (worldWithFiles []) l' (Pointer MyConfig))
            [loadEnvironment sampleLib (worldWithFiles []) l';
             loadFlags sampleLib (worldWithFiles []) l']
            _ _ _ eq_refl _ _ _).
  - vm_compute. reflexivity.
  - reflexivity.
  - discriminate.
Defined.

(** ** Parsing for a width and for 64 bits *)

Lemma parseDigits_mono s base cutoff maxVal maxVal' :
  maxVal <= maxVal' ->
  forall n m, strconv.parseDigits s base cutoff maxVal n = inr m ->
              strconv.parseDigits s base cutoff maxVal' n = inr m.
Proof.
  intros Hle. induction s as [|c s IH]; intros n m H; simpl in *; [exact H|].
  destruct (strconv.digitVal c) as [d|]; [|discriminate].
  destruct (base <=? d); [discriminate|].
  destruct (cutoff <=? n); [discriminate|].
  set (n1 := ((n * base) mod 2 ^ 64 + d) mod 2 ^ 64) in *.
  destruct (n1 <? (n * base) mod 2 ^ 64); [discriminate|].
  destruct (Z.ltb_spec maxVal n1); [discriminate|]. simpl in H.
  destruct (Z.ltb_spec maxVal' n1); [lia|]. simpl. now apply IH.
Qed.

Lemma parseUint_widen s bits m :
  0 < bits <= 64 ->
  strconv.parseUint s 10 bits = inr m -> strconv.parseUint s 10 64 = inr m.
Proof.
  intros Hb H. unfold strconv.parseUint in *.
  destruct (String.eqb s ""); [discriminate|].
  destruct (Z.eqb_spec bits 0) as [->|_]; [lia|].
  change (64 =? 0) with false. cbv iota.
  eapply parseDigits_mono; [|exact H].
  assert (2 ^ bits <= 2 ^ 64) by (apply Z.pow_le_mono_r; lia). lia.
Qed.

Lemma ParseUint_widen s bits n :
  0 < bits <= 64 ->
  strconv.ParseUint s 10 bits = Val n -> strconv.ParseUint s 10 64 = Val n.
Proof.
  intros Hb H. unfold strconv.ParseUint in *.
  destruct (strconv.parseUint s 10 bits) as [|m] eqn:E; [discriminate|].
  now rewrite (parseUint_widen _ _ _ Hb E).
Qed.

Lemma ParseInt_widen s bits n :
  0 < bits <= 64 ->
  strconv.ParseInt s 10 bits = Val n -> strconv.ParseInt s 10 64 = Val n.
Proof.
  intros Hb H. unfold strconv.ParseInt in *.
  destruct s as [|c rest]; [discriminate|].
  destruct (strconv.parseUint _ 10 bits) as [[|]|un] eqn:Eu; try discriminate.
  rewrite (parseUint_widen _ _ _ Hb Eu).
  destruct (Z.eqb_spec bits 0) as [->|_]; [lia|].
  change (64 =? 0) with false. cbv iota.
  assert (2 ^ (bits - 1) <= 2 ^ (64 - 1)) by (apply Z.pow_le_mono_r; lia).
  destruct (Ascii.eqb c "-"); simpl negb in *; simpl andb in *.
  - destruct (Z.ltb_spec (2 ^ (bits - 1)) un); [discriminate|].
    destruct (Z.ltb_spec (2 ^ (64 - 1)) un); [lia | exact H].
  - destruct (Z.leb_spec (2 ^ (bits - 1)) un); [discriminate|].
    destruct (Z.leb_spec (2 ^ (64 - 1)) un); [lia | exact H].
Qed.

(** ** The setters against the coercion *)

(** The case of a signed kind of [bits] bits other than [time.Duration]. *)
Ltac signed_case bits Hc Hw Ht :=
  let Ep := fresh "Ep" in
  let Hb := fresh "Hb" in
  cbn [reflect.intBits] in Hc;
  assert (Hb : 0 < bits <= 64) by (unfold strconv.IntSize; lia);
  destruct (strconv.ParseInt _ 10 bits) as [?n|] eqn:Ep; [|discriminate];
  inversion Hc; subst; unfold setInt;
  rewrite (ParseInt_widen _ bits _ Hb Ep);
  unfold reflect.SetInt, reflect.ValueKind; rewrite Hw, Ht;
  cbn [reflect.KindOf reflect.intBits stored];
  rewrite Wrap_int_id;
  [reflexivity | lia | apply ParseInt_range in Ep; [exact Ep | lia]].

(** The case of an unsigned kind of [bits] bits. *)
Ltac unsigned_case bits Hc Hw Ht :=
  let Ep := fresh "Ep" in
  let Hb := fresh "Hb" in
  cbn [reflect.uintBits] in Hc;
  assert (Hb : 0 < bits <= 64) by (unfold strconv.IntSize; lia);
  destruct (strconv.ParseUint _ 10 bits) as [?n|] eqn:Ep; [|discriminate];
  inversion Hc; subst; unfold setUint;
  rewrite (ParseUint_widen _ bits _ Hb Ep);
  unfold reflect.SetUint, reflect.ValueKind; rewrite Hw, Ht;
  cbn [reflect.KindOf reflect.uintBits stored];
  rewrite Wrap_uint_id;
  [reflexivity | apply ParseUint_range in Ep; [exact Ep | lia]].

(** A raw string the coercion accepts is parsed by the setter of the
    kind to the same value, and stored. *)
Lemma setFieldData_coerce lib l fd raw v s :
  wellTyped fd -> coerce lib (reflect.Typ (Field fd)) raw = Some v ->
  setFieldData lib l fd raw s = (<[locOf fd := v]> s, Return None).
Proof.
  intros Hw Hc. unfold setFieldData, locOf, reflect.ValueKind. rewrite Hw.
  destruct (reflect.Typ (Field fd)) as [id k | id fs] eqn:Ht; [|discriminate].
  unfold coerce in Hc. cbn [reflect.KindOf] in *.
  assert (Duration_kind : k <> reflect.Int64 ->
            reflect.Type_eqb (reflect.TOther id k) reflect.Duration = false).
  { intros Hk. destruct (reflect.Type_eqb _ _) eqn:E; [|reflexivity].
    apply Type_eqb_Duration in E. inversion E. congruence. }
  destruct k; try discriminate; cbn [settersByKind].
  - (* bool *)
    unfold setBool. destruct (strconv.ParseBool raw); [|discriminate].
    inversion Hc; subst. unfold reflect.SetBool, reflect.ValueKind.
    rewrite Hw, Ht. reflexivity.
  - rewrite Duration_kind in Hc by discriminate.
    signed_case strconv.IntSize Hc Hw Ht.
  - rewrite Duration_kind in Hc by discriminate. signed_case 8 Hc Hw Ht.
  - rewrite Duration_kind in Hc by discriminate. signed_case 16 Hc Hw Ht.
  - rewrite Duration_kind in Hc by discriminate. signed_case 32 Hc Hw Ht.
  - (* int64, time.Duration or not *)
    destruct (reflect.Type_eqb (reflect.TOther id reflect.Int64) reflect.Duration) eqn:E.
    + apply Type_eqb_Duration in E as E'.
      destruct (time.ParseDuration lib raw) as [d|] eqn:Ep; [|discriminate].
      inversion Hc; subst.
      pose proof (setInt64_Duration lib l fd raw s) as H.
      unfold setFieldData, reflect.ValueKind in H. rewrite Hw, Ht, E' in H.
      cbn [reflect.KindOf reflect.Duration settersByKind] in H.
      rewrite H by auto. now rewrite Ep.
    + cbn [reflect.intBits] in Hc.
      destruct (strconv.ParseInt raw 10 64) as [n|] eqn:Ep; [|discriminate].
      inversion Hc; subst.
      assert (Hid : id <> "time.Duration").
      { intros ->. discriminate E. }
      pose proof (setInt64_other lib l fd id raw s Ht Hw Hid) as H.
      unfold setFieldData, reflect.ValueKind in H. rewrite Hw, Ht in H.
      cbn [reflect.KindOf settersByKind] in H. rewrite H, Ep. reflexivity.
  - unsigned_case strconv.IntSize Hc Hw Ht.
  - unsigned_case 8 Hc Hw Ht.
  - unsigned_case 16 Hc Hw Ht.
  - unsigned_case 32 Hc Hw Ht.
  - unsigned_case 64 Hc Hw Ht.
  - (* float32 *)
    unfold setFloat. destruct (parseFloat lib raw 64); [|discriminate].
    inversion Hc; subst. unfold reflect.SetFloat, reflect.ValueKind.
    rewrite Hw, Ht. reflexivity.
  - (* float64 *)
    unfold setFloat. destruct (parseFloat lib raw 64); [|discriminate].
    inversion Hc; subst. unfold reflect.SetFloat, reflect.ValueKind.
    rewrite Hw, Ht. reflexivity.
  - (* string *)
    inversion Hc; subst. unfold setString, reflect.SetString, reflect.ValueKind.
    rewrite Hw, Ht. reflexivity.
Qed.

(** ** Descriptors of the catalog: types and locations *)

Lemma getFieldsLoop_wellTyped loc parent fs :
  Forall (fun f => forall loc parent,
            Forall wellTyped (getFieldsHelper (reflect.Typ f) loc parent)) fs ->
  forall i, Forall wellTyped (getFieldsLoop loc parent fs i).
Proof.
  induction 1 as [|f fs Hf _ IH]; intros i; [constructor|].
  cbn -[getFieldsHelper]. destruct (CanSet f); cbn -[getFieldsHelper]; [|apply IH].
  destruct (reflect.Typ f) as [id k | id gs] eqn:Ht.
  - constructor; [|apply IH]. unfold wellTyped. cbn. now rewrite Ht.
  - apply Forall_app. split; [apply Hf | apply IH].
Qed.

Lemma getFieldsHelper_wellTyped t :
  forall loc parent, Forall wellTyped (getFieldsHelper t loc parent).
Proof.
  induction t as [id k | id fs IH] using Type_ind'; intros loc parent.
  - constructor.
  - rewrite getFieldsHelper_struct. now apply getFieldsLoop_wellTyped.
Qed.

Lemma below_weaken loc i j p : (i <= j)%nat -> below loc j p -> below loc i p.
Proof. intros Hij (k & rest & -> & Hk). exists k, rest. split; [reflexivity | lia]. Qed.

Lemma below_nested loc i p : below (loc ++ [i])%list 0 p -> below loc i p.
Proof.
  intros (k & rest & -> & _). exists i, (k :: rest). split; [|lia].
  now rewrite <- app_assoc.
Qed.

Lemma below_apart loc i p :
  below (loc ++ [i])%list 0 p -> below loc (S i) p -> False.
Proof.
  intros (k & rest & -> & _) (k' & rest' & H & Hk).
  rewrite <- app_assoc in H. apply app_inv_head in H.
  inversion H. lia.
Qed.

Lemma getFieldsLoop_below loc parent fs :
  Forall (fun f => forall loc parent,
            Forall (fun fd => below loc 0 (locOf fd))
              (getFieldsHelper (reflect.Typ f) loc parent)) fs ->
  forall i, Forall (fun fd => below loc i (locOf fd)) (getFieldsLoop loc parent fs i).
Proof.
  induction 1 as [|f fs Hf _ IH]; intros i; [constructor|].
  assert (Hrest : Forall (fun fd => below loc i (locOf fd))
                    (getFieldsLoop loc parent fs (S i))).
  { eapply Forall_impl; [apply IH|]. intros fd. apply below_weaken. lia. }
  cbn -[getFieldsHelper]. destruct (CanSet f); cbn -[getFieldsHelper]; [|exact Hrest].
  destruct (reflect.Typ f) as [id k | id gs] eqn:Ht.
  - constructor; [|exact Hrest]. exists i, []. split; [reflexivity | lia].
  - apply Forall_app. split; [|exact Hrest].
    eapply Forall_impl; [apply Hf|]. intros fd. apply below_nested.
Qed.

Lemma getFieldsHelper_below t :
  forall loc parent,
    Forall (fun fd => below loc 0 (locOf fd)) (getFieldsHelper t loc parent).
Proof.
  induction t as [id k | id fs IH] using Type_ind'; intros loc parent.
  - constructor.
  - rewrite getFieldsHelper_struct. now apply getFieldsLoop_below.
Qed.

Lemma getFieldsLoop_NoDup loc parent fs :
  Forall (fun f => forall loc parent,
            NoDup (map locOf (getFieldsHelper (reflect.Typ f) loc parent))) fs ->
  forall i, NoDup (map locOf (getFieldsLoop loc parent fs i)).
Proof.
  induction 1 as [|f fs Hf _ IH]; intros i; [constructor|].
  assert (Hlater : forall p, p ∈ map locOf (getFieldsLoop loc parent fs (S i)) ->
                             below loc (S i) p).
  { intros p Hp. apply list_elem_of_fmap in Hp as (fd & -> & Hfd).
    pose proof (getFieldsLoop_below loc parent fs
                  ltac:(apply Forall_forall; intros; apply getFieldsHelper_below) (S i)) as Hb.
    rewrite Forall_forall in Hb. now apply Hb. }
  cbn -[getFieldsHelper]. destruct (CanSet f); cbn -[getFieldsHelper]; [|apply IH].
  destruct (reflect.Typ f) as [id k | id gs] eqn:Ht.
  - cbn. apply NoDup_cons. split; [|apply IH].
    intros Hin. apply Hlater in Hin. destruct Hin as (j & rest & H & Hj).
    apply app_inv_head in H. inversion H. lia.
  - rewrite map_app. apply NoDup_app. split; [apply Hf|]. split; [|apply IH].
    intros p Hp Hp'. apply Hlater in Hp'.
    apply list_elem_of_fmap in Hp as (fd & -> & Hfd).
    eapply below_apart; [|exact Hp'].
    eapply (proj1 (Forall_forall _ _) (getFieldsHelper_below _ _ _)). exact Hfd.
Qed.

(** No two descriptors of a catalog write to the same location. *)
Lemma getFieldsHelper_NoDup t :
  forall loc parent, NoDup (map locOf (getFieldsHelper t loc parent)).
Proof.
  induction t as [id k | id fs IH] using Type_ind'; intros loc parent.
  - constructor.
  - rewrite getFieldsHelper_struct. now apply getFieldsLoop_NoDup.
Qed.

(** ** The defaults stage *)

Lemma rangeLoop_defaults lib l fds :
  Forall wellTyped fds ->
  (forall fd, fd ∈ fds -> is_Some (coercedDefault lib fd)) ->
  forall s,
    rangeLoop (fun fd s => check (setFieldData lib l fd (DefaultValue fd) s)) fds s
    = (withDefaults lib fds s, None).
Proof.
  induction 1 as [|fd fds Hw _ IH]; intros Hok s; [reflexivity|].
  destruct (Hok fd) as [v Hv]; [left|].
  cbn [rangeLoop withDefaults foldl]. rewrite Hv.
  rewrite (setFieldData_coerce lib l fd _ v s Hw Hv). cbn [check].
  apply IH. intros fd' Hfd'. apply Hok. now right.
Qed.

Lemma withDefaults_other lib fds :
  forall s p, p ∉ map locOf fds -> withDefaults lib fds s !! p = s !! p.
Proof.
  induction fds as [|fd fds IH]; intros s p Hp; [reflexivity|].
  cbn [withDefaults foldl]. cbn [map] in Hp.
  apply not_elem_of_cons in Hp as [Hne Hp].
  change (withDefaults lib fds
            match coercedDefault lib fd with
            | Some v => <[locOf fd := v]> s
            | None => s
            end !! p = s !! p).
  rewrite IH by exact Hp.
  destruct (coercedDefault lib fd); [|reflexivity].
  now apply lookup_insert_ne.
Qed.

Lemma withDefaults_leaf lib fds :
  forall s fd,
    NoDup (map locOf fds) -> fd ∈ fds -> is_Some (coercedDefault lib fd) ->
    withDefaults lib fds s !! locOf fd = coercedDefault lib fd.
Proof.
  induction fds as [|fd0 fds IH]; intros s fd Hnd Hin Hok; [inversion Hin|].
  cbn [map] in Hnd. apply NoDup_cons in Hnd as [Hfresh Hnd].
  change (withDefaults lib fds
            match coercedDefault lib fd0 with
            | Some v => <[locOf fd0 := v]> s
            | None => s
            end !! locOf fd = coercedDefault lib fd).
  apply elem_of_cons in Hin as [-> | Hin].
  - rewrite withDefaults_other by exact Hfresh.
    destruct Hok as [v Hv]. rewrite Hv. apply lookup_insert_eq.
  - now apply IH.
Qed.

Lemma NewLoader_flags cfg :
  UseDefaults (config (NewLoader cfg)) = UseDefaults cfg
  /\ UseFile (config (NewLoader cfg)) = UseFile cfg
  /\ UseEnv (config (NewLoader cfg)) = UseEnv cfg
  /\ UseFlag (config (NewLoader cfg)) = UseFlag cfg
  /\ Files (config (NewLoader cfg)) = Files cfg.
Proof.
  unfold NewLoader.
  destruct (String.eqb (EnvPrefix cfg) ""); cbn;
    destruct (String.eqb (FlagPrefix cfg) ""); cbn; repeat split.
Qed.

(** C1, as the code has it. With only the defaults stage enabled, and
    every leaf of the record carrying a default that the coercion of its
    kind accepts, [Load] succeeds, each leaf holds its default coerced to
    its kind, and nothing else in the record has changed. *)
Theorem defaults_stage_applies_accepted_defaults (lib : GoLib) (w : World)
    (cfg : LoaderConfig) (id : string) (fs : list reflect.StructField) (s : Store) :
  UseDefaults cfg = true -> UseFile cfg = false ->
  UseEnv cfg = false -> UseFlag cfg = false ->
  let l := NewLoader cfg in
  let fds := getFieldsHelper (reflect.TStruct id fs) [] None in
  (forall fd, fd ∈ fds -> is_Some (coercedDefault lib fd)) ->
  exists s',
    Load lib w l (Pointer (reflect.TStruct id fs)) s
    = ({| config := config l; fields := fds |}, (s', Return None))
    /\ (forall fd, fd ∈ fds -> s' !! locOf fd = coercedDefault lib fd)
    /\ (forall p, p ∉ map locOf fds -> s' !! p = s !! p).
Proof.
  intros Hd Hf He Hg l fds Hok. exists (withDefaults lib fds s).
  destruct (NewLoader_flags cfg) as (Hd' & Hf' & He' & Hg' & _).
  split; [|split].
  - subst l. unfold Load. cbn [getFields ValueOfElem reflect.typ reflect.ptr]. fold fds.
    cbn [config]. rewrite Hd', Hf', He', Hg', Hd, Hf, He, Hg.
    unfold loadDefaults. cbn [fields andThen].
    rewrite rangeLoop_defaults; [reflexivity | apply getFieldsHelper_wellTyped | exact Hok].
  - intros fd Hfd. apply withDefaults_leaf; [apply getFieldsHelper_NoDup | exact Hfd | now apply Hok].
  - intros p Hp. now apply withDefaults_other.
Qed.

Lemma defaults_stage_applies_accepted_defaults_witness :
  exists s',
    Load sampleLib (worldWithFiles []) (NewLoader onlyDefaults) (Pointer MyConfig) ∅
    = ({| config := config (NewLoader onlyDefaults);
          fields := getFieldsHelper MyConfig [] None |}, (s', Return None))
    /\ (forall fd, fd ∈ getFieldsHelper MyConfig [] None ->
                   s' !! locOf fd = coercedDefault sampleLib fd)
    /\ (forall p, p ∉ map locOf (getFieldsHelper MyConfig [] None) ->
                  s' !! p = (∅ : Store) !! p).
Proof.
  apply (defaults_stage_applies_accepted_defaults sampleLib (worldWithFiles [])
           onlyDefaults "MyConfig" _ ∅ eq_refl eq_refl eq_refl eq_refl).
  intros fd Hfd.
  repeat (apply elem_of_cons in Hfd as [-> | Hfd]; [eexists; reflexivity|]).
  inversion Hfd.
Defined.

(** C1, as it is stated, fails: a leaf [Port int] without a default makes
    [Load] return the syntax error of parsing the empty string, and a
    default that does not parse makes it return that error. *)
Lemma defaults_stage_parses_every_default :
  snd (Load sampleLib (worldWithFiles []) (NewLoader onlyDefaults) (Pointer NoDefault) ∅)
  = (∅, Return (Some (NumError "ParseInt" "" ErrSyntax)))
  /\ snd (Load sampleLib (worldWithFiles []) (NewLoader onlyDefaults) (Pointer BadDefault) ∅)
     = (∅, Return (Some (NumError "ParseInt" "abc" ErrSyntax))).
Proof. split; reflexivity. Qed.

(** ** The parsers against the decimal value of a string *)

Lemma isDigit_val c : Bytes.isDigit c = true -> 0 <= Bytes.val c - Bytes.val "0" <= 9.
Proof.
  unfold Bytes.isDigit, Bytes.between. intros H.
  apply andb_prop in H as [H1 H2]. apply Z.leb_le in H1, H2.
  change (Bytes.val "0") with 48 in *. change (Bytes.val "9") with 57 in *. lia.
Qed.

Lemma digitVal_digit c :
  Bytes.isDigit c = true -> strconv.digitVal c = Some (Bytes.val c - Bytes.val "0").
Proof. intros H. unfold strconv.digitVal. now rewrite H. Qed.

Lemma digitsValue_ge s : forall acc z, 0 <= acc -> digitsValue s acc = Some z -> acc <= z.
Proof.
  induction s as [|c s IH]; intros acc z Hacc H; simpl in H.
  - inversion H. lia.
  - destruct (Bytes.isDigit c) eqn:Ec; [|discriminate].
    pose proof (isDigit_val c Ec). apply IH in H; lia.
Qed.

(** The digit loop of [ParseUint] for 64 bits returns the decimal value
    when it fits and a range error when it does not. *)
Lemma parseDigits_value s :
  forall n z,
    0 <= n <= strconv.maxUint64 -> digitsValue s n = Some z ->
    strconv.parseDigits s 10 (strconv.maxUint64 / 10 + 1) (2 ^ 64 - 1) n
    = if z <=? strconv.maxUint64 then inr z else inl ErrRange.
Proof.
  change strconv.maxUint64 with 18446744073709551615.
  change (18446744073709551615 / 10 + 1) with 1844674407370955162.
  change (2 ^ 64 - 1) with 18446744073709551615.
  induction s as [|c s IH]; intros n z Hn H; simpl in H.
  - inversion H; subst. cbn [strconv.parseDigits].
    destruct (Z.leb_spec z 18446744073709551615); [reflexivity | lia].
  - destruct (Bytes.isDigit c) eqn:Ec; [|discriminate].
    pose proof (isDigit_val c Ec) as Hd.
    cbn [strconv.parseDigits]. rewrite (digitVal_digit c Ec).
    set (d := Bytes.val c - Bytes.val "0") in *.
    destruct (Z.leb_spec 10 d); [lia|].
    assert (Hz : n * 10 + d <= z) by (apply (digitsValue_ge s); [lia | exact H]).
    destruct (Z.leb_spec 1844674407370955162 n).
    + destruct (Z.leb_spec z 18446744073709551615); [lia | reflexivity].
    + change (2 ^ 64) with 18446744073709551616.
      rewrite (Z.mod_small (n * 10)) by lia.
      destruct (Z.le_gt_cases (n * 10 + d) 18446744073709551615) as [Hfit|Hover].
      * rewrite (Z.mod_small (n * 10 + d)) by lia.
        destruct (Z.ltb_spec (n * 10 + d) (n * 10)); [lia|].
        destruct (Z.ltb_spec 18446744073709551615 (n * 10 + d)); [lia|].
        cbn [orb]. apply IH; [lia | exact H].
      * assert (Hm : (n * 10 + d) mod 18446744073709551616
                     = n * 10 + d - 18446744073709551616).
        { replace (n * 10 + d)
            with (n * 10 + d - 18446744073709551616 + 1 * 18446744073709551616) at 1 by lia.
          rewrite Z.mod_add by lia. apply Z.mod_small. lia. }
        rewrite Hm.
        destruct (Z.ltb_spec (n * 10 + d - 18446744073709551616) (n * 10)); [|lia].
        cbn [orb]. destruct (Z.leb_spec z 18446744073709551615); [lia | reflexivity].
Qed.

Lemma parseUint_value s z :
  unsignedValue s = Some z ->
  strconv.parseUint s 10 64 = if z <=? strconv.maxUint64 then inr z else inl ErrRange.
Proof.
  unfold unsignedValue, strconv.parseUint.
  destruct (String.eqb s ""); [discriminate|]. intros H.
  change (64 =? 0) with false. cbv iota.
  apply parseDigits_value; [|exact H].
  change strconv.maxUint64 with 18446744073709551615. lia.
Qed.

Lemma unsignedValue_nonneg s z : unsignedValue s = Some z -> 0 <= z.
Proof.
  unfold unsignedValue. destruct (String.eqb s ""); [discriminate|].
  intros H. apply digitsValue_ge in H; lia.
Qed.

(** [ParseUint(s, 10, 64)] on a decimal numeral. *)
Lemma ParseUint_value s z :
  unsignedValue s = Some z ->
  strconv.ParseUint s 10 64
  = if z <? 2 ^ 64 then Val z else Err (NumError "ParseUint" s ErrRange).
Proof.
  intros H. unfold strconv.ParseUint. rewrite (parseUint_value s z H).
  change strconv.maxUint64 with 18446744073709551615.
  change (2 ^ 64) with 18446744073709551616.
  destruct (Z.leb_spec z 18446744073709551615), (Z.ltb_spec z 18446744073709551616);
    try lia; reflexivity.
Qed.

(** Decide every comparison of the goal. *)
Ltac compare_all :=
  repeat match goal with
    | |- context [Z.leb ?a ?b] => destruct (Z.leb_spec a b)
    | |- context [Z.ltb ?a ?b] => destruct (Z.ltb_spec a b)
    end;
  cbn [negb andb orb]; try reflexivity; try lia.

(** [ParseInt(s, 10, 64)] on a decimal numeral with an optional sign. *)
Lemma ParseInt_value s z :
  signedValue s = Some z ->
  strconv.ParseInt s 10 64
  = if (- 2 ^ 63 <=? z) && (z <? 2 ^ 63) then Val z
    else Err (NumError "ParseInt" s ErrRange).
Proof.
  unfold signedValue, strconv.ParseInt. destruct s as [|c rest]; [discriminate|].
  change (64 =? 0) with false. cbv iota. change (2 ^ (64 - 1)) with (2 ^ 63).
  change (2 ^ 63) with 9223372036854775808.
  destruct (Ascii.eqb c "-") eqn:Em.
  - rewrite orb_true_r.
    destruct (unsignedValue rest) as [u|] eqn:Eu; [|discriminate].
    intros H. inversion H; subst. pose proof (unsignedValue_nonneg _ _ Eu).
    rewrite (parseUint_value rest u Eu).
    change strconv.maxUint64 with 18446744073709551615.
    cbn [negb andb]. compare_all.
  - rewrite orb_false_r. cbn [negb andb].
    assert (Hcase : forall str,
               unsignedValue str = Some z ->
               match strconv.parseUint str 10 64 with
               | inl ErrSyntax => Err (NumError "ParseInt" (String c rest) ErrSyntax)
               | inl ErrRange => Err (NumError "ParseInt" (String c rest) ErrRange)
               | inr un =>
                   if 9223372036854775808 <=? un
                   then Err (NumError "ParseInt" (String c rest) ErrRange)
                   else Val un
               end
               = if (- 9223372036854775808 <=? z) && (z <? 9223372036854775808)
                 then Val z else Err (NumError "ParseInt" (String c rest) ErrRange)).
    { intros str Hs. pose proof (unsignedValue_nonneg _ _ Hs).
      rewrite (parseUint_value str z Hs).
      change strconv.maxUint64 with 18446744073709551615.
      compare_all. }
    destruct (Ascii.eqb c "+"); intros H; now apply Hcase.
Qed.

(** ** Integers beyond the width of a field *)

(** C3, as it is stated, fails: ["99999999999"], far beyond 8 bits, sets
    an [int8] to -1 and a [uint8] to 255 and no error is returned, while
    the parsers asked for 8 bits refuse the string. *)
Lemma narrow_integer_is_wrapped :
  signedValue "99999999999" = Some 99999999999
  /\ setFieldData sampleLib (NewLoader DefaultConfig)
       (leafAt 0 "N" reflect.int8 []) "99999999999" ∅
     = (<[[0%nat] := reflect.VInt (-1)]> ∅, Return None)
  /\ setFieldData sampleLib (NewLoader DefaultConfig)
       (leafAt 0 "N" reflect.uint8 []) "99999999999" ∅
     = (<[[0%nat] := reflect.VUint 255]> ∅, Return None)
  /\ strconv.ParseInt "99999999999" 10 8 = Err (NumError "ParseInt" "99999999999" ErrRange)
  /\ strconv.ParseUint "99999999999" 10 8 = Err (NumError "ParseUint" "99999999999" ErrRange).
Proof. repeat split. Qed.

(** C3, as the code has it. For every integer leaf other than a
    [time.Duration] and every decimal string whose value is beyond 64
    bits, signed for a signed leaf and unsigned for an unsigned one, the
    setter returns the range error of the parser and the record is left
    as it was. *)
Theorem integer_beyond_64_bits_is_refused (lib : GoLib) (l : Loader)
    (fd : fieldData) (raw : string) (z : Z) (s : Store) :
  wellTyped fd ->
  let k := reflect.KindOf (reflect.Typ (Field fd)) in
  (is_Some (reflect.intBits k) -> reflect.Typ (Field fd) <> reflect.Duration ->
   signedValue raw = Some z -> ~ (- 2 ^ 63 <= z < 2 ^ 63) ->
   setFieldData lib l fd raw s = (s, Return (Some (NumError "ParseInt" raw ErrRange))))
  /\ (is_Some (reflect.uintBits k) -> k <> reflect.Uintptr ->
      unsignedValue raw = Some z -> ~ (z < 2 ^ 64) ->
      setFieldData lib l fd raw s = (s, Return (Some (NumError "ParseUint" raw ErrRange)))).
Proof.
  intros Hw k. subst k. unfold setFieldData, reflect.ValueKind. rewrite Hw.
  destruct (reflect.Typ (Field fd)) as [id k | id fs] eqn:Ht; cbn [reflect.KindOf].
  2:{ split; intros [b Hb]; discriminate Hb. }
  split.
  - intros [b Hb] Hdur Hv Hz.
    assert (Hp : strconv.ParseInt raw 10 64 = Err (NumError "ParseInt" raw ErrRange)).
    { rewrite (ParseInt_value raw z Hv). compare_all. }
    destruct k; try discriminate Hb; cbn [settersByKind];
      try (unfold setInt; rewrite Hp; reflexivity).
    unfold setInt64. rewrite Ht.
    destruct (reflect.Type_eqb _ reflect.Duration) eqn:E.
    + apply Type_eqb_Duration in E. contradiction.
    + unfold setInt. rewrite Hp. reflexivity.
  - intros [b Hb] Hk Hv Hz.
    assert (Hp : strconv.ParseUint raw 10 64 = Err (NumError "ParseUint" raw ErrRange)).
    { rewrite (ParseUint_value raw z Hv). compare_all. }
    destruct k; try discriminate Hb; try congruence; cbn [settersByKind];
      unfold setUint; rewrite Hp; reflexivity.
Qed.

Lemma integer_beyond_64_bits_is_refused_witness :
  setFieldData sampleLib (NewLoader DefaultConfig)
    (leafAt 0 "N" reflect.int8 []) "9223372036854775808" ∅
  = (∅, Return (Some (NumError "ParseInt" "9223372036854775808" ErrRange))).
Proof.
  refine (proj1 (integer_beyond_64_bits_is_refused sampleLib (NewLoader DefaultConfig)
                   (leafAt 0 "N" reflect.int8 []) "9223372036854775808"
                   9223372036854775808 ∅ eq_refl) _ _ eq_refl _).
  - exists 8. reflexivity.
  - discriminate.
  - lia.
Defined.

(** * Further properties of the loader *)

(** ** What a setter does to the record *)

(** A call of [setFieldData] either fails and leaves the record as it
    was, or succeeds and writes one value at the location of the leaf. *)
Lemma setFieldData_cases lib l fd raw s s' o :
  setFieldData lib l fd raw s = (s', o) ->
  (s' = s /\ o <> Return None)
  \/ (exists v, s' = <[locOf fd := v]> s /\ o = Return None).
Proof.
  unfold setFieldData, locOf, reflect.ValueKind.
  destruct (reflect.KindOf (reflect.typ (Value fd))) eqn:Ek; cbn [settersByKind];
    try (intros H; inversion H; left; split; [reflexivity | discriminate]);
    unfold setBool, setString, setInt, setInt64, setInt, setUint, setFloat,
      reflect.SetBool, reflect.SetString, reflect.SetInt, reflect.SetUint,
      reflect.SetFloat, reflect.SetDuration, reflect.ValueKind;
    rewrite ?Ek; cbn [reflect.intBits reflect.uintBits stored];
    repeat match goal with
      | |- context [match ?x with _ => _ end] => destruct x
      end;
    intros H; inversion H; subst;
    solve [ left; split; [reflexivity | discriminate]
          | right; eexists; split; reflexivity ].
Qed.

(** X4. [setFieldData] writes nowhere but at the location of its leaf,
    and writes nothing at all when it returns an error or panics. *)
Theorem setFieldData_writes_own_location_only (lib : GoLib) (l : Loader)
    (fd : fieldData) (raw : string) (s : Store) :
  (forall p, p <> locOf fd -> fst (setFieldData lib l fd raw s) !! p = s !! p)
  /\ (snd (setFieldData lib l fd raw s) <> Return None ->
      fst (setFieldData lib l fd raw s) = s).
Proof.
  destruct (setFieldData lib l fd raw s) as [s' o] eqn:E. cbn [fst snd].
  apply setFieldData_cases in E as [[-> Ho] | (v & -> & ->)]; split.
  - reflexivity.
  - reflexivity.
  - intros p Hp. apply lookup_insert_ne. congruence.
  - congruence.
Qed.

Lemma setFieldData_writes_own_location_only_witness :
  fst (setFieldData sampleLib (NewLoader DefaultConfig)
         (leafAt 0 "Port" reflect.int []) "8080" ∅) !! [1%nat] = (∅ : Store) !! [1%nat]
  /\ fst (setFieldData sampleLib (NewLoader DefaultConfig)
            (leafAt 0 "Port" reflect.int []) "x" ∅) = ∅.
Proof.
  split.
  - apply (proj1 (setFieldData_writes_own_location_only sampleLib (NewLoader DefaultConfig)
                    (leafAt 0 "Port" reflect.int []) "8080" ∅)).
    discriminate.
  - apply (proj2 (setFieldData_writes_own_location_only sampleLib (NewLoader DefaultConfig)
                    (leafAt 0 "Port" reflect.int []) "x" ∅)).
    discriminate.
Defined.

(** X5. For a descriptor whose value has the type of its field,
    [setFieldData] panics exactly when the kind of the leaf has no
    setter: any kind other than bool, string, the five signed and five
    unsigned integer kinds and the two float kinds. *)
Theorem setFieldData_panics_iff_unsupported (lib : GoLib) (l : Loader)
    (fd : fieldData) (raw : string) (s : Store) :
  wellTyped fd ->
  (exists p, snd (setFieldData lib l fd raw s) = Panic p)
  <-> supportedKind (kindOf fd) = false.
Proof.
  intros Hw. unfold setFieldData, kindOf, reflect.ValueKind. rewrite Hw.
  destruct (reflect.Typ (Field fd)) as [id k | id fs] eqn:Ht; cbn [reflect.KindOf].
  2:{ cbn. split; [reflexivity | eauto]. }
  destruct k; cbn [settersByKind supportedKind snd];
    try (split; [reflexivity | eauto]);
    (split; [|discriminate]); intros [p Hp]; exfalso; revert Hp;
    unfold setBool, setString, setInt, setInt64, setInt, setUint, setFloat,
      reflect.SetBool, reflect.SetString, reflect.SetInt, reflect.SetUint,
      reflect.SetFloat, reflect.SetDuration, reflect.ValueKind;
    rewrite ?Hw, ?Ht; cbn [reflect.KindOf reflect.intBits reflect.uintBits stored];
    repeat match goal with
      | |- context [match ?x with _ => _ end] => destruct x eqn:?
      end;
    cbn [snd stored]; try discriminate.
Qed.

Lemma setFieldData_panics_iff_unsupported_witness :
  exists p, snd (setFieldData sampleLib (NewLoader DefaultConfig)
                   (leafAt 0 "Tags" (reflect.TOther "[]string" reflect.Slice) [])
                   "" ∅) = Panic p.
Proof.
  apply (proj2 (setFieldData_panics_iff_unsupported sampleLib (NewLoader DefaultConfig)
                  (leafAt 0 "Tags" (reflect.TOther "[]string" reflect.Slice) [])
                  "" ∅ eq_refl)).
  reflexivity.
Defined.

(** ** The stages that set leaves *)

Lemma runStage_source lib w l into st s :
  st <> FileStage ->
  runStage lib w l into st s
  = orReturn (rangeLoop (sourceBody lib l (stageSource lib w l st)) (fields l) s)
      (Return None).
Proof. destruct st; [reflexivity | congruence | reflexivity | reflexivity]. Qed.

Lemma sourceBody_never_breaks lib l src fd s : snd (sourceBody lib l src fd s) <> Break.
Proof.
  unfold sourceBody. destruct (src fd) as [raw|]; [|discriminate].
  destruct (setFieldData lib l fd raw s) as [s' [[e|]|p]]; discriminate.
Qed.

(** The loop leaves by [return] only with an error or a panic. *)
Lemma rangeLoop_source_outcome lib l src fds :
  forall s s' o, rangeLoop (sourceBody lib l src) fds s = (s', Some o) -> o <> Return None.
Proof.
  induction fds as [|fd fds IH]; intros s s' o H; cbn [rangeLoop] in H; [discriminate|].
  unfold sourceBody at 1 in H. destruct (src fd) as [raw|].
  - destruct (setFieldData lib l fd raw s) as [s1 [[e|]|p]]; cbn [check] in H;
      try (inversion H; subst; discriminate). now apply IH in H.
  - now apply IH in H.
Qed.

Lemma withSource_cons lib src fd fds s :
  withSource lib src (fd :: fds) s
  = withSource lib src fds
      match coerced lib src fd with
      | Some v => <[locOf fd := v]> s
      | None => s
      end.
Proof. reflexivity. Qed.

Lemma rangeLoop_source_accepted lib l src fds :
  Forall wellTyped fds -> acceptedSource lib src fds ->
  forall s, rangeLoop (sourceBody lib l src) fds s = (withSource lib src fds s, None).
Proof.
  induction 1 as [|fd fds Hw _ IH]; intros Hok s; [reflexivity|].
  assert (Hrest : acceptedSource lib src fds).
  { intros fd' raw Hin. apply Hok. now right. }
  cbn [rangeLoop]. rewrite withSource_cons. unfold sourceBody at 1, coerced.
  destruct (src fd) as [raw|] eqn:Es; [|now apply IH].
  destruct (Hok fd raw) as [v Hv]; [left | exact Es |].
  rewrite Hv, (setFieldData_coerce lib l fd raw v s Hw Hv). cbn [check].
  now apply IH.
Qed.

Lemma withSource_other lib src fds :
  forall s p, p ∉ map locOf fds -> withSource lib src fds s !! p = s !! p.
Proof.
  induction fds as [|fd fds IH]; intros s p Hp; [reflexivity|].
  cbn [map] in Hp. apply not_elem_of_cons in Hp as [Hne Hp].
  rewrite withSource_cons, IH by exact Hp.
  destruct (coerced lib src fd); [|reflexivity]. now apply lookup_insert_ne.
Qed.

Lemma withSource_leaf lib src fds :
  forall s fd,
    NoDup (map locOf fds) -> fd ∈ fds ->
    withSource lib src fds s !! locOf fd
    = match coerced lib src fd with
      | Some v => Some v
      | None => s !! locOf fd
      end.
Proof.
  induction fds as [|fd0 fds IH]; intros s fd Hnd Hin; [inversion Hin|].
  cbn [map] in Hnd. apply NoDup_cons in Hnd as [Hfresh Hnd].
  rewrite withSource_cons.
  apply elem_of_cons in Hin as [-> | Hin].
  - rewrite withSource_other by exact Hfresh.
    destruct (coerced lib src fd0); [apply lookup_insert_eq | reflexivity].
  - rewrite IH by assumption.
    destruct (coerced lib src fd) as [v|]; [reflexivity|].
    destruct (coerced lib src fd0); [|reflexivity].
    apply lookup_insert_ne. intros Heq. apply Hfresh. rewrite Heq.
    apply list_elem_of_fmap. now exists fd.
Qed.

Lemma withSource_none lib fds s : withSource lib (fun _ => None) fds s = s.
Proof. induction fds as [|fd fds IH]; [reflexivity | exact IH]. Qed.

(** X6. Each of the stages defaults, environment and flags, run on the
    catalog of a record when every raw string the stage has for a leaf is
    one the coercion of the leaf's kind accepts, succeeds; a leaf the
    stage has a raw string for then holds that string coerced, a leaf it
    has none for keeps its value, and nothing else in the record changes. *)
Theorem field_stage_sets_the_leaves_it_has_values_for (lib : GoLib) (w : World)
    (cfg : LoaderConfig) (id : string) (fs : list reflect.StructField)
    (into : Target) (st : Stage) (s : Store) :
  st <> FileStage ->
  let fds := getFieldsHelper (reflect.TStruct id fs) [] None in
  let l := {| config := cfg; fields := fds |} in
  acceptedSource lib (stageSource lib w l st) fds ->
  exists s',
    runStage lib w l into st s = (s', Return None)
    /\ (forall fd, fd ∈ fds ->
          s' !! locOf fd
          = match stageSource lib w l st fd with
            | Some raw => coerce lib (reflect.Typ (Field fd)) raw
            | None => s !! locOf fd
            end)
    /\ (forall p, p ∉ map locOf fds -> s' !! p = s !! p).
Proof.
  intros Hst fds l Hok. exists (withSource lib (stageSource lib w l st) fds s).
  split; [|split].
  - rewrite runStage_source by exact Hst. cbn [fields l].
    rewrite rangeLoop_source_accepted;
      [reflexivity | apply getFieldsHelper_wellTyped | exact Hok].
  - intros fd Hfd. rewrite withSource_leaf; [|apply getFieldsHelper_NoDup | exact Hfd].
    unfold coerced. destruct (stageSource lib w l st fd) as [raw|] eqn:Es; [|reflexivity].
    destruct (Hok fd raw Hfd Es) as [v Hv]. now rewrite Hv.
  - intros p Hp. now apply withSource_other.
Qed.

(** Discharge [acceptedSource] on a catalog given leaf by leaf. *)
Ltac accept_each :=
  let fd := fresh "fd" in
  let raw := fresh "raw" in
  let Hfd := fresh "Hfd" in
  let Hsrc := fresh "Hsrc" in
  intros fd raw Hfd Hsrc;
  repeat (apply elem_of_cons in Hfd as [-> | Hfd];
          [vm_compute in Hsrc;
           first [ discriminate Hsrc
                 | inversion Hsrc; subst; eexists; vm_compute; reflexivity ] |]);
  inversion Hfd.

Lemma field_stage_sets_the_leaves_it_has_values_for_witness :
  let w := sampleWorld [] [("APP_PORT", "3333")] [] in
  let l := {| config := config (NewLoader readmeConfig); fields := MyConfigFields |} in
  exists s',
    loadEnvironment sampleLib w l ∅ = (s', Return None)
    /\ (forall fd, fd ∈ MyConfigFields ->
          s' !! locOf fd
          = match stageSource sampleLib w l Environment fd with
            | Some raw => coerce sampleLib (reflect.Typ (Field fd)) raw
            | None => (∅ : Store) !! locOf fd
            end)
    /\ (forall p, p ∉ map locOf MyConfigFields -> s' !! p = (∅ : Store) !! p).
Proof.
  intros w l.
  apply (field_stage_sets_the_leaves_it_has_values_for sampleLib w
           (config (NewLoader readmeConfig)) "MyConfig" _ (Pointer MyConfig)
           Environment ∅); [discriminate|].
  accept_each.
Defined.

Lemma rangeLoop_source_frame lib l src fds :
  forall s p, p ∉ map locOf fds ->
              fst (rangeLoop (sourceBody lib l src) fds s) !! p = s !! p.
Proof.
  induction fds as [|fd fds IH]; intros s p Hp; [reflexivity|].
  cbn [map] in Hp. apply not_elem_of_cons in Hp as [Hne Hp].
  cbn [rangeLoop]. unfold sourceBody at 1.
  destruct (src fd) as [raw|]; [|now apply IH].
  destruct (setFieldData lib l fd raw s) as [s1 o] eqn:E.
  apply setFieldData_cases in E as [[-> Ho] | (v & -> & ->)].
  - destruct o as [[e|]|pn]; cbn [check fst]; [reflexivity | congruence | reflexivity].
  - cbn [check]. rewrite IH by exact Hp. now apply lookup_insert_ne.
Qed.

(** X7. The stages defaults, environment and flags change no location of
    the record other than those of the leaves of the catalog, whether
    they succeed, return an error or panic. *)
Theorem field_stage_changes_catalog_locations_only (lib : GoLib) (w : World)
    (l : Loader) (into : Target) (st : Stage) (s : Store) (p : reflect.Loc) :
  st <> FileStage -> p ∉ map locOf (fields l) ->
  fst (runStage lib w l into st s) !! p = s !! p.
Proof.
  intros Hst Hp. rewrite runStage_source by exact Hst.
  pose proof (rangeLoop_source_frame lib l (stageSource lib w l st) (fields l) s p Hp) as H.
  destruct (rangeLoop _ (fields l) s) as [s' [o|]]; exact H.
Qed.

Lemma field_stage_changes_catalog_locations_only_witness :
  fst (loadDefaults sampleLib
         {| config := config (NewLoader readmeConfig); fields := MyConfigFields |}
         (<[[7%nat] := reflect.VString "kept"]> ∅)) !! [7%nat]
  = Some (reflect.VString "kept").
Proof.
  refine (field_stage_changes_catalog_locations_only sampleLib (sampleWorld [] [] [])
            {| config := config (NewLoader readmeConfig); fields := MyConfigFields |}
            (Pointer MyConfig) Defaults (<[[7%nat] := reflect.VString "kept"]> ∅)
            [7%nat] _ _).
  - discriminate.
  - vm_compute. intros H.
    repeat (apply elem_of_cons in H as [H | H]; [discriminate H|]). inversion H.
Defined.

Lemma stageSource_fields lib w cfg fds fds' st fd :
  stageSource lib w {| config := cfg; fields := fds |} st fd
  = stageSource lib w {| config := cfg; fields := fds' |} st fd.
Proof. destruct st; reflexivity. Qed.

(** X8. The stages defaults, environment and flags stop at the first leaf
    whose raw string the setter refuses: when the leaves before [fd] are
    set without error and the raw string of [fd] is refused, the stage
    ends with that error or panic, the record is as the leaves before
    [fd] left it, and no leaf after [fd] is looked at. *)
Theorem field_stage_stops_at_first_refusal (lib : GoLib) (w : World)
    (cfg : LoaderConfig) (into : Target) (st : Stage)
    (pre : list fieldData) (fd : fieldData) (post : list fieldData)
    (raw : string) (s s1 : Store) (o : outcome) :
  st <> FileStage ->
  let l := {| config := cfg; fields := (pre ++ fd :: post)%list |} in
  runStage lib w {| config := cfg; fields := pre |} into st s = (s1, Return None) ->
  stageSource lib w l st fd = Some raw ->
  snd (setFieldData lib l fd raw s1) = o -> o <> Return None ->
  runStage lib w l into st s = (s1, o).
Proof.
  intros Hst l Hpre Hsrc Hset Ho.
  rewrite runStage_source in Hpre |- * by exact Hst. cbn [fields l] in *.
  rewrite rangeLoop_app by apply sourceBody_never_breaks.
  assert (Hloop : rangeLoop (sourceBody lib l (stageSource lib w l st)) pre s = (s1, None)).
  { change (sourceBody lib l (stageSource lib w l st))
      with (sourceBody lib {| config := cfg; fields := pre |} (stageSource lib w l st)).
    replace (stageSource lib w l st)
      with (stageSource lib w {| config := cfg; fields := pre |} st).
    2:{ destruct st; reflexivity. }
    destruct (rangeLoop _ pre s) as [s0 [o0|]] eqn:E; cbn [orReturn] in Hpre.
    - apply rangeLoop_source_outcome in E. inversion Hpre; subst. congruence.
    - inversion Hpre; subst. reflexivity. }
  rewrite Hloop. cbn [rangeLoop]. unfold sourceBody at 1. rewrite Hsrc.
  destruct (setFieldData lib l fd raw s1) as [s2 o2] eqn:E. cbn [snd] in Hset. subst o2.
  apply setFieldData_cases in E as [[-> _] | (v & _ & ->)]; [|congruence].
  destruct o as [[e|]|pn]; [reflexivity | congruence | reflexivity].
Qed.

Lemma field_stage_stops_at_first_refusal_witness :
  loadDefaults sampleLib
    {| config := onlyDefaults; fields := getFieldsHelper WithSlice [] None |} ∅
  = (<[[0%nat] := reflect.VInt 1111]> ∅,
     Panic (reflect.UnknownKind reflect.Slice "Tags")).
Proof.
  refine (field_stage_stops_at_first_refusal sampleLib (sampleWorld [] [] []) onlyDefaults
            (Pointer WithSlice) Defaults
            [leafAt 0 "Port" reflect.int [("default", "1111")]]
            (leafAt 1 "Tags" (reflect.TOther "[]string" reflect.Slice) []) []
            "" ∅ _ _ _ _ eq_refl eq_refl _); [discriminate | | discriminate].
  vm_compute. reflexivity.
Defined.

(** ** Precedence of the stages *)

(** An enabled stage whose raw strings are accepted, or a disabled one. *)
Lemma stage_step lib w l into st s :
  st <> FileStage -> Forall wellTyped (fields l) ->
  acceptedSource lib (enabledSource lib w l st) (fields l) ->
  (if enabled (config l) st then runStage lib w l into st s else (s, Return None))
  = (withSource lib (enabledSource lib w l st) (fields l) s, Return None).
Proof.
  intros Hst Hw Hok. unfold enabledSource in *.
  destruct (enabled (config l) st).
  - rewrite runStage_source by exact Hst.
    rewrite rangeLoop_source_accepted by assumption. reflexivity.
  - now rewrite withSource_none.
Qed.

(** The file stage does nothing when it is disabled or has no file. *)
Lemma file_stage_inert lib w l into s :
  UseFile (config l) = false \/ Files (config l) = [] ->
  (if UseFile (config l) then loadFromFile lib w l into s else (s, Return None))
  = (s, Return None).
Proof.
  intros [H | H].
  - now rewrite H.
  - destruct (UseFile (config l)); [|reflexivity].
    unfold loadFromFile. now rewrite H.
Qed.

Lemma Load_field_stages lib w l id fs s :
  UseFile (config l) = false \/ Files (config l) = [] ->
  let fds := getFieldsHelper (reflect.TStruct id fs) [] None in
  let l' := {| config := config l; fields := fds |} in
  (forall st, st <> FileStage -> acceptedSource lib (enabledSource lib w l' st) fds) ->
  Load lib w l (Pointer (reflect.TStruct id fs)) s
  = (l', (withSource lib (enabledSource lib w l' Flags) fds
            (withSource lib (enabledSource lib w l' Environment) fds
               (withSource lib (enabledSource lib w l' Defaults) fds s)),
          Return None)).
Proof.
  intros Hfile fds l' Hok. unfold Load.
  cbn [getFields ValueOfElem reflect.typ reflect.ptr]. fold fds. fold l'. f_equal.
  assert (Hw : Forall wellTyped (fields l')) by apply getFieldsHelper_wellTyped.
  change (if UseDefaults (config l') then loadDefaults lib l' s else (s, Return None))
    with (if enabled (config l') Defaults
          then runStage lib w l' (Pointer (reflect.TStruct id fs)) Defaults s
          else (s, Return None)).
  rewrite stage_step; [|discriminate | exact Hw | apply Hok; discriminate].
  cbn [andThen]. rewrite (file_stage_inert lib w l') by exact Hfile. cbn [andThen].
  match goal with
  | |- context [if UseEnv (config l') then loadEnvironment lib w l' ?s0 else _] =>
      change (if UseEnv (config l') then loadEnvironment lib w l' s0 else (s0, Return None))
        with (if enabled (config l') Environment
              then runStage lib w l' (Pointer (reflect.TStruct id fs)) Environment s0
              else (s0, Return None))
  end.
  rewrite stage_step; [|discriminate | exact Hw | apply Hok; discriminate].
  cbn [andThen].
  match goal with
  | |- context [if UseFlag (config l') then loadFlags lib w l' ?s0 else _] =>
      change (if UseFlag (config l') then loadFlags lib w l' s0 else (s0, Return None))
        with (if enabled (config l') Flags
              then runStage lib w l' (Pointer (reflect.TStruct id fs)) Flags s0
              else (s0, Return None))
  end.
  rewrite stage_step; [|discriminate | exact Hw | apply Hok; discriminate].
  reflexivity.
Qed.

(** What the three stages leave at a leaf. *)
Lemma resolved_lookup lib w l fds s fd :
  NoDup (map locOf fds) -> fd ∈ fds ->
  (forall st, st <> FileStage -> acceptedSource lib (enabledSource lib w l st) fds) ->
  withSource lib (enabledSource lib w l Flags) fds
    (withSource lib (enabledSource lib w l Environment) fds
       (withSource lib (enabledSource lib w l Defaults) fds s)) !! locOf fd
  = match resolved lib w l fd with
    | Some raw => coerce lib (reflect.Typ (Field fd)) raw
    | None => s !! locOf fd
    end.
Proof.
  intros Hnd Hfd Hok. rewrite !withSource_leaf by assumption.
  unfold resolved, coerced.
  destruct (enabledSource lib w l Flags fd) as [raw|] eqn:Ef.
  { destruct (Hok Flags ltac:(discriminate) fd raw Hfd Ef) as [v Hv]. now rewrite Hv. }
  destruct (enabledSource lib w l Environment fd) as [raw|] eqn:Ee.
  { destruct (Hok Environment ltac:(discriminate) fd raw Hfd Ee) as [v Hv]. now rewrite Hv. }
  destruct (enabledSource lib w l Defaults fd) as [raw|] eqn:Ed; [|reflexivity].
  destruct (Hok Defaults ltac:(discriminate) fd raw Hfd Ed) as [v Hv]. now rewrite Hv.
Qed.

(** X9. Precedence. When the file stage is disabled or has no file, and
    every raw string an enabled stage has for a leaf is accepted by the
    coercion of the leaf's kind, [Load] succeeds and each leaf holds the
    coerced raw string of the last enabled stage that has one for it: the
    flag, else the environment variable, else the default; a leaf no
    enabled stage has a string for keeps its value, and nothing else in
    the record changes. *)
Theorem Load_later_stage_wins (lib : GoLib) (w : World) (l : Loader)
    (id : string) (fs : list reflect.StructField) (s : Store) :
  UseFile (config l) = false \/ Files (config l) = [] ->
  let fds := getFieldsHelper (reflect.TStruct id fs) [] None in
  let l' := {| config := config l; fields := fds |} in
  (forall st, st <> FileStage -> acceptedSource lib (enabledSource lib w l' st) fds) ->
  exists s',
    Load lib w l (Pointer (reflect.TStruct id fs)) s = (l', (s', Return None))
    /\ (forall fd, fd ∈ fds ->
          s' !! locOf fd
          = match resolved lib w l' fd with
            | Some raw => coerce lib (reflect.Typ (Field fd)) raw
            | None => s !! locOf fd
            end)
    /\ (forall p, p ∉ map locOf fds -> s' !! p = s !! p).
Proof.
  intros Hfile fds l' Hok. eexists. split; [|split].
  - now apply Load_field_stages.
  - intros fd Hfd. apply resolved_lookup; [apply getFieldsHelper_NoDup | exact Hfd | exact Hok].
  - intros p Hp. now rewrite !withSource_other.
Qed.

Lemma Load_later_stage_wins_witness :
  let w := sampleWorld [] [("APP_PORT", "3333"); ("APP_AUTH_USER", "env-user")]
             [("app.port", "4444")] in
  let l' := {| config := config (NewLoader readmeNoFiles); fields := MyConfigFields |} in
  exists s',
    Load sampleLib w (NewLoader readmeNoFiles) (Pointer MyConfig) ∅
    = (l', (s', Return None))
    /\ (forall fd, fd ∈ MyConfigFields ->
          s' !! locOf fd
          = match resolved sampleLib w l' fd with
            | Some raw => coerce sampleLib (reflect.Typ (Field fd)) raw
            | None => (∅ : Store) !! locOf fd
            end)
    /\ (forall p, p ∉ map locOf MyConfigFields -> s' !! p = (∅ : Store) !! p).
Proof.
  intros w l'.
  apply (Load_later_stage_wins sampleLib w (NewLoader readmeNoFiles) "MyConfig" _ ∅).
  - right. reflexivity.
  - intros st Hst. destruct st; [accept_each | congruence | accept_each | accept_each].
Defined.

(** The README's record with port 1111 by default, 3333 in the
    environment and 4444 as a flag: the flag wins, then the environment. *)
Example readme_precedence :
  let w := sampleWorld [] [("APP_PORT", "3333"); ("APP_AUTH_USER", "env-user")]
             [("app.port", "4444")] in
  fst (snd (Load sampleLib w (NewLoader readmeNoFiles) (Pointer MyConfig) ∅))
  = <[[2%nat; 0%nat] := reflect.VString "base"]>
      (<[[1%nat; 1%nat] := reflect.VString "def-pass"]>
         (<[[1%nat; 0%nat] := reflect.VString "env-user"]>
            (<[[0%nat] := reflect.VInt 4444]> ∅))).
Proof. vm_compute. reflexivity. Qed.

(** X10. Loading twice is loading once: under the conditions of the
    precedence of the stages, a second [Load] into the record the first
    one left succeeds and leaves the same record. *)
Theorem Load_twice_is_Load_once (lib : GoLib) (w : World) (l : Loader)
    (id : string) (fs : list reflect.StructField) (s : Store) :
  UseFile (config l) = false \/ Files (config l) = [] ->
  let fds := getFieldsHelper (reflect.TStruct id fs) [] None in
  let l' := {| config := config l; fields := fds |} in
  (forall st, st <> FileStage -> acceptedSource lib (enabledSource lib w l' st) fds) ->
  exists s',
    Load lib w l (Pointer (reflect.TStruct id fs)) s = (l', (s', Return None))
    /\ Load lib w l' (Pointer (reflect.TStruct id fs)) s' = (l', (s', Return None)).
Proof.
  intros Hfile fds l' Hok.
  pose proof (Load_field_stages lib w l id fs s Hfile Hok) as H1.
  pose proof (Load_field_stages lib w l' id fs) as H2.
  cbv zeta in H1, H2. cbn [config] in H2. fold fds l' in H1, H2.
  eexists. split; [exact H1|].
  rewrite H2 by assumption. f_equal. f_equal.
  apply map_eq. intros p.
  destruct (decide (p ∈ map locOf fds)) as [Hin | Hout].
  - apply list_elem_of_fmap in Hin as (fd & -> & Hfd).
    rewrite !(resolved_lookup lib w l' fds) by
      (try apply getFieldsHelper_NoDup; assumption).
    destruct (resolved lib w l' fd); reflexivity.
  - now rewrite !withSource_other by exact Hout.
Qed.

Lemma Load_twice_is_Load_once_witness :
  let w := sampleWorld [] [("APP_PORT", "3333")] [] in
  let l' := {| config := config (NewLoader readmeNoFiles); fields := MyConfigFields |} in
  exists s',
    Load sampleLib w (NewLoader readmeNoFiles) (Pointer MyConfig) ∅
    = (l', (s', Return None))
    /\ Load sampleLib w l' (Pointer MyConfig) s' = (l', (s', Return None)).
Proof.
  intros w l'.
  apply (Load_twice_is_Load_once sampleLib w (NewLoader readmeNoFiles) "MyConfig" _ ∅).
  - right. reflexivity.
  - intros st Hst. destruct st; [accept_each | congruence | accept_each | accept_each].
Defined.

(** ** Panics of [Load] *)

Lemma setFieldData_panic_inv lib l fd raw s s' p :
  wellTyped fd -> setFieldData lib l fd raw s = (s', Panic p) ->
  supportedKind (kindOf fd) = false
  /\ p = reflect.UnknownKind (kindOf fd) (Name fd).
Proof.
  intros Hw. unfold setFieldData, kindOf, reflect.ValueKind. rewrite Hw.
  destruct (reflect.Typ (Field fd)) as [id k | id fs] eqn:Ht; cbn [reflect.KindOf].
  2:{ cbn. intros H. inversion H. split; reflexivity. }
  destruct k; cbn [settersByKind supportedKind];
    try (intros H; inversion H; split; reflexivity);
    intros H; exfalso; revert H;
    unfold setBool, setString, setInt, setInt64, setInt, setUint, setFloat,
      reflect.SetBool, reflect.SetString, reflect.SetInt, reflect.SetUint,
      reflect.SetFloat, reflect.SetDuration, reflect.ValueKind;
    rewrite ?Hw, ?Ht; cbn [reflect.KindOf reflect.intBits reflect.uintBits stored];
    repeat match goal with
      | |- context [match ?x with _ => _ end] => destruct x eqn:?
      end;
    cbn [stored]; discriminate.
Qed.

Lemma rangeLoop_source_panic lib l src fds :
  Forall wellTyped fds ->
  forall s s' p,
    rangeLoop (sourceBody lib l src) fds s = (s', Some (Panic p)) ->
    exists fd, fd ∈ fds /\ supportedKind (kindOf fd) = false
               /\ p = reflect.UnknownKind (kindOf fd) (Name fd).
Proof.
  induction 1 as [|fd fds Hw _ IH]; intros s s' p H; cbn [rangeLoop] in H; [discriminate|].
  assert (Hrest : forall s0, rangeLoop (sourceBody lib l src) fds s0 = (s', Some (Panic p)) ->
            exists fd', fd' ∈ fd :: fds /\ supportedKind (kindOf fd') = false
                        /\ p = reflect.UnknownKind (kindOf fd') (Name fd')).
  { intros s0 H0. destruct (IH _ _ _ H0) as (fd' & Hin & Hk). exists fd'. split; [now right | exact Hk]. }
  unfold sourceBody at 1 in H. destruct (src fd) as [raw|]; [|now apply (Hrest s)].
  destruct (setFieldData lib l fd raw s) as [s1 [[e|]|pn]] eqn:E; cbn [check] in H.
  - inversion H.
  - now apply (Hrest s1).
  - inversion H; subst. exists fd. split; [left|].
    now apply (setFieldData_panic_inv lib l fd raw s s').
Qed.

Lemma loadFromFile_no_panic lib w l dst s p : snd (loadFromFile lib w l dst s) <> Panic p.
Proof.
  unfold loadFromFile. destruct (Files (config l)) as [|file rest]; [discriminate|].
  cbn [rangeLoop]. destruct (Open w file) as [f|err]; [|discriminate].
  destruct (formatOf _); [|discriminate].
  destruct (decode lib _ f dst s) as [s' [err|]]; discriminate.
Qed.

Lemma runStages_panic stages :
  forall s s' p,
    runStages stages s = (s', Panic p) ->
    exists st s0, st ∈ stages /\ st s0 = (s', Panic p).
Proof.
  induction stages as [|st stages IH]; intros s s' p H; cbn [runStages] in H; [discriminate|].
  destruct (st s) as [s1 [[e|]|pn]] eqn:E.
  - discriminate.
  - destruct (IH _ _ _ H) as (st' & s0 & Hin & Hst). exists st', s0. split; [now right | exact Hst].
  - inversion H; subst. exists st, s. split; [left | exact E].
Qed.

(** X11. [Load] into a pointer to a struct panics only for a leaf whose
    kind has no setter: when it panics, the catalog has a leaf of an
    unsupported kind and the panic is the "unknown kind" panic of
    [setFieldData] for that leaf (the file decoders report their
    failures as errors). *)
Theorem Load_panics_only_for_unsupported_leaf (lib : GoLib) (w : World) (l : Loader)
    (id : string) (fs : list reflect.StructField) (s s' : Store)
    (l' : Loader) (p : reflect.panic) :
  Load lib w l (Pointer (reflect.TStruct id fs)) s = (l', (s', Panic p)) ->
  exists fd,
    fd ∈ getFieldsHelper (reflect.TStruct id fs) [] None
    /\ supportedKind (kindOf fd) = false
    /\ p = reflect.UnknownKind (kindOf fd) (Name fd).
Proof.
  intros H.
  rewrite (Load_runStages lib w l (Pointer (reflect.TStruct id fs)) s _ eq_refl) in H.
  inversion H as [[Hl Hrun]]. clear H Hl.
  apply runStages_panic in Hrun as (st & s0 & Hin & Hst).
  apply list_elem_of_fmap in Hin as (stage & -> & _).
  destruct stage.
  - rewrite runStage_source in Hst by discriminate. cbn [fields] in Hst.
    destruct (rangeLoop _ _ s0) as [s1 [o|]] eqn:E; cbn [orReturn] in Hst; [|discriminate].
    inversion Hst; subst.
    eapply rangeLoop_source_panic; [apply getFieldsHelper_wellTyped | exact E].
  - exfalso. cbn [runStage] in Hst.
    eapply loadFromFile_no_panic. rewrite Hst. reflexivity.
  - rewrite runStage_source in Hst by discriminate. cbn [fields] in Hst.
    destruct (rangeLoop _ _ s0) as [s1 [o|]] eqn:E; cbn [orReturn] in Hst; [|discriminate].
    inversion Hst; subst.
    eapply rangeLoop_source_panic; [apply getFieldsHelper_wellTyped | exact E].
  - rewrite runStage_source in Hst by discriminate. cbn [fields] in Hst.
    destruct (rangeLoop _ _ s0) as [s1 [o|]] eqn:E; cbn [orReturn] in Hst; [|discriminate].
    inversion Hst; subst.
    eapply rangeLoop_source_panic; [apply getFieldsHelper_wellTyped | exact E].
Qed.

Lemma Load_panics_only_for_unsupported_leaf_witness :
  exists fd,
    fd ∈ getFieldsHelper WithSlice [] None
    /\ supportedKind (kindOf fd) = false
    /\ reflect.UnknownKind reflect.Slice "Tags"
       = reflect.UnknownKind (kindOf fd) (Name fd).
Proof.
  refine (Load_panics_only_for_unsupported_leaf sampleLib (sampleWorld [] [] [])
            (NewLoader onlyDefaults) "WithSlice" _ ∅
            (<[[0%nat] := reflect.VInt 1111]> ∅)
            {| config := config (NewLoader onlyDefaults);
               fields := getFieldsHelper WithSlice [] None |}
            (reflect.UnknownKind reflect.Slice "Tags") _).
  vm_compute. reflexivity.
Defined.

(** ** What [Load] reads of its process *)

Lemma runStages_map_ext (f g : Stage -> Store -> Store * outcome) stages :
  (forall st, In st stages -> forall s, f st s = g st s) ->
  forall s, runStages (map f stages) s = runStages (map g stages) s.
Proof.
  induction stages as [|st stages IH]; intros H s; [reflexivity|].
  cbn [map runStages]. rewrite (H st) by (left; reflexivity).
  destruct (g st s) as [s' [[e|]|p]]; try reflexivity.
  apply IH. intros st' Hin. apply H. now right.
Qed.

Lemma rangeLoop_source_ext lib l src src' fds :
  (forall fd, fd ∈ fds -> src fd = src' fd) ->
  forall s, rangeLoop (sourceBody lib l src) fds s = rangeLoop (sourceBody lib l src') fds s.
Proof.
  intros H. apply rangeLoop_ext_in. intros fd Hfd s.
  unfold sourceBody. rewrite (H fd); [reflexivity|]. now apply list_elem_of_In.
Qed.

Lemma loadFromFile_ext lib w1 w2 l dst s :
  (forall file rest, Files (config l) = file :: rest -> Open w1 file = Open w2 file) ->
  loadFromFile lib w1 l dst s = loadFromFile lib w2 l dst s.
Proof.
  intros H. unfold loadFromFile.
  destruct (Files (config l)) as [|file rest] eqn:E; [reflexivity|].
  cbn [rangeLoop]. rewrite (H file rest eq_refl).
  destruct (Open w2 file) as [f|err]; [|reflexivity].
  destruct (formatOf _); [|reflexivity].
  destruct (decode lib _ f dst s) as [s' [err|]]; reflexivity.
Qed.

(** X16. [Load] reads its process only where an enabled stage looks: two
    processes that agree on the first listed file when the file stage is
    enabled, on the environment keys of the leaves when the environment
    stage is enabled and on the flags named after the leaves when the
    flag stage is enabled give the same result, whatever else differs. *)
Theorem Load_reads_only_what_enabled_stages_look_up (lib : GoLib) (w1 w2 : World)
    (l : Loader) (into : Target) (s : Store) :
  (UseFile (config l) = true ->
   forall file rest, Files (config l) = file :: rest -> Open w1 file = Open w2 file) ->
  (UseEnv (config l) = true ->
   forall fds fd, getFields into = inr fds -> fd ∈ fds ->
     LookupEnv w1 (getEnvName lib l (FullName (Some fd)))
     = LookupEnv w2 (getEnvName lib l (FullName (Some fd)))) ->
  (UseFlag (config l) = true ->
   forall fds fd, getFields into = inr fds -> fd ∈ fds ->
     flagLookup w1 (getFlagName lib l (FullName (Some fd)))
     = flagLookup w2 (getFlagName lib l (FullName (Some fd)))) ->
  Load lib w1 l into s = Load lib w2 l into s.
Proof.
  intros Hfile Henv Hflag.
  destruct (getFields into) as [p | fds] eqn:Eg.
  { unfold Load. now rewrite Eg. }
  rewrite (Load_runStages lib w1 l into s fds Eg), (Load_runStages lib w2 l into s fds Eg).
  cbv zeta. f_equal. apply runStages_map_ext. intros st Hst s0.
  apply filter_In in Hst as [_ Hen].
  destruct st; cbn [enabled] in Hen.
  - reflexivity.
  - cbn [runStage]. apply loadFromFile_ext. cbn [config]. now apply Hfile.
  - rewrite !runStage_source by discriminate. cbn [fields]. f_equal.
    etransitivity; [apply rangeLoop_source_ext | reflexivity].
    intros fd Hfd. cbn. now apply (Henv Hen fds).
  - rewrite !runStage_source by discriminate. cbn [fields]. f_equal.
    etransitivity; [apply rangeLoop_source_ext | reflexivity].
    intros fd Hfd. cbn. now apply (Hflag Hen fds).
Qed.

Lemma Load_reads_only_what_enabled_stages_look_up_witness :
  Load sampleLib (sampleWorld [] [("APP_PORT", "3333")] [])
    (NewLoader readmeNoFiles) (Pointer MyConfig) ∅
  = Load sampleLib
      (sampleWorld [("other.json", "{}")] [("HOME", "/root"); ("APP_PORT", "3333")]
         [("verbose", "true")])
      (NewLoader readmeNoFiles) (Pointer MyConfig) ∅.
Proof.
  apply Load_reads_only_what_enabled_stages_look_up.
  - intros _ file rest H. discriminate H.
  - intros _ fds fd H Hfd. inversion H; subst. clear H.
    repeat (apply elem_of_cons in Hfd as [-> | Hfd]; [reflexivity|]). inversion Hfd.
  - intros _ fds fd H Hfd. inversion H; subst. clear H.
    repeat (apply elem_of_cons in Hfd as [-> | Hfd]; [reflexivity|]). inversion Hfd.
Defined.

(** ** Names of flags *)

Lemma NewLoader_FlagPrefix cfg :
  FlagPrefix (config (NewLoader cfg)) = normalizedFlagPrefix cfg.
Proof.
  unfold NewLoader, normalizedFlagPrefix.
  destruct (String.eqb (EnvPrefix cfg) ""); cbn;
    destruct (String.eqb (FlagPrefix cfg) "") eqn:E; cbn; try reflexivity;
    apply String.eqb_eq in E; exact E.
Qed.

(** X1. The flag the flag stage looks up for a leaf is named by the
    lowercase of the prefix, followed by ["."] when it is not empty, and
    of the dotted name of the leaf; the stage looks up no other flag;
    with prefix ["app"] the leaf [Port] has the flag ["app.port"] and the
    leaf [Auth.User] the flag ["app.auth.user"]. *)
Theorem flag_name_of_leaf (lib : GoLib) (cfg : LoaderConfig) :
  (forall name, getFlagName lib (NewLoader cfg) name = flagName lib cfg name)
  /\ (forall w fds s,
        let l := {| config := config (NewLoader cfg); fields := fds |} in
        loadFlags lib
          (onlyFlags (map (fun fd => flagName lib cfg (FullName (Some fd))) fds) w) l s
        = loadFlags lib w l s)
  /\ getFlagName lib (NewLoader readmeConfig) "Port" = "app.port"
  /\ getFlagName lib (NewLoader readmeConfig) "Auth.User" = "app.auth.user".
Proof.
  assert (Hname : forall name, getFlagName lib (NewLoader cfg) name = flagName lib cfg name).
  { intros name. unfold getFlagName, flagName. now rewrite NewLoader_FlagPrefix. }
  split; [exact Hname|]. split; [|split; reflexivity].
  intros w fds s l. unfold loadFlags. f_equal.
  apply rangeLoop_ext_in. intros fd Hfd s'.
  cbn [fields flagLookup onlyFlags l].
  replace (getFlagName lib l (FullName (Some fd)))
    with (flagName lib cfg (FullName (Some fd))) by (symmetry; apply Hname).
  rewrite existsb_eqb_In; [reflexivity|].
  apply in_map_iff. exists fd. split; [reflexivity | exact Hfd].
Qed.

(** ** What the catalog holds *)

Lemma getFieldsLoop_leaves loc parent fs :
  groupChain parent ->
  Forall (fun f => forall loc parent, groupChain parent ->
            Forall leafDescriptor (getFieldsHelper (reflect.Typ f) loc parent)) fs ->
  forall i, Forall leafDescriptor (getFieldsLoop loc parent fs i).
Proof.
  intros Hp. induction 1 as [|f fs Hf _ IH]; intros i; [constructor|].
  cbn -[getFieldsHelper]. destruct (CanSet f) eqn:Ec; cbn -[getFieldsHelper]; [|apply IH].
  destruct (reflect.Typ f) as [id k | id gs] eqn:Ht.
  - constructor; [|apply IH].
    unfold leafDescriptor, wellTyped. cbn. rewrite Ht. repeat split; eauto.
  - apply Forall_app. split; [|apply IH]. apply Hf.
    destruct (reflect.Anonymous f) eqn:Ea; [exact Hp|].
    cbn. rewrite Ht. repeat split; eauto.
Qed.

Lemma getFieldsHelper_leaves t :
  forall loc parent, groupChain parent ->
                     Forall leafDescriptor (getFieldsHelper t loc parent).
Proof.
  induction t as [id k | id fs IH] using Type_ind'; intros loc parent Hp.
  - constructor.
  - rewrite getFieldsHelper_struct. now apply getFieldsLoop_leaves.
Qed.

(** X2. The catalog [getFields] builds for a pointer to a struct holds
    leaves only: every descriptor is an exported field whose type is not
    a struct, carries the name and the [default] tag of that field and a
    value of its type; every descriptor on its parent chain is an
    exported field of struct type that is not embedded; and no two
    descriptors share a location. *)
Theorem getFields_catalog_holds_settable_leaves (id : string)
    (fs : list reflect.StructField) :
  exists fds,
    getFields (Pointer (reflect.TStruct id fs)) = inr fds
    /\ Forall leafDescriptor fds
    /\ NoDup (map locOf fds).
Proof.
  eexists. split; [reflexivity|]. split.
  - now apply getFieldsHelper_leaves.
  - apply getFieldsHelper_NoDup.
Qed.

(** Fields that are not exported are passed over, at the root and inside
    a group. *)
Example WithPrivate_catalog :
  map (fun fd => (FullName_ fd, locOf fd, DefaultValue fd))
    (getFieldsHelper WithPrivate [] None)
  = [("Inner.Host", [1%nat; 0%nat], "localhost")].
Proof. reflexivity. Qed.

(** ** The file stage *)

(** X12. The file stage looks at the first listed file only: two loaders
    whose lists of files start with the same file give the same result,
    whatever files follow. *)
Theorem file_stage_consults_first_file_only (lib : GoLib) (w : World)
    (l1 l2 : Loader) (file : string) (rest1 rest2 : list string)
    (dst : Target) (s : Store) :
  Files (config l1) = file :: rest1 -> Files (config l2) = file :: rest2 ->
  loadFromFile lib w l1 dst s = loadFromFile lib w l2 dst s.
Proof.
  intros H1 H2. unfold loadFromFile. rewrite H1, H2. cbn [rangeLoop].
  destruct (Open w file) as [f|err]; [|reflexivity].
  destruct (formatOf _); [|reflexivity].
  destruct (decode lib _ f dst s) as [s' [err|]]; reflexivity.
Qed.

Lemma file_stage_consults_first_file_only_witness :
  loadFromFile sampleLib (sampleWorld [("ouch.yaml", "port: 2222")] [] [])
    (NewLoader readmeConfig) (Pointer MyConfig) ∅
  = loadFromFile sampleLib (sampleWorld [("ouch.yaml", "port: 2222")] [] [])
      (NewLoader readmeFirstFile) (Pointer MyConfig) ∅.
Proof.
  apply (file_stage_consults_first_file_only sampleLib
           (sampleWorld [("ouch.yaml", "port: 2222")] [] [])
           (NewLoader readmeConfig) (NewLoader readmeFirstFile)
           "file.json" ["ouch.yaml"] []); reflexivity.
Defined.

Lemma extFrom_app p e :
  forall acc, exists acc', filepath.extFrom (p ++ e) acc = filepath.extFrom e acc'.
Proof.
  induction p as [|c p IH]; intros acc.
  - exists acc. reflexivity.
  - change (String c p ++ e) with (String c (p ++ e)). cbn [filepath.extFrom].
    destruct (Ascii.eqb c "/"); [apply IH|].
    destruct (Ascii.eqb c "."); apply IH.
Qed.

Lemma extFrom_plain x : forall acc, plainExt x = true -> filepath.extFrom x acc = acc.
Proof.
  induction x as [|c x IH]; intros acc H; [reflexivity|].
  cbn in H. apply andb_prop in H as [Hc Hx].
  apply negb_true_iff, orb_false_iff in Hc as [Hdot Hslash].
  cbn [filepath.extFrom]. rewrite Hslash, Hdot. now apply IH.
Qed.

(** The extension of a path that ends in a dot and a plain extension. *)
Lemma Ext_app p x : plainExt x = true -> filepath.Ext (p ++ "." ++ x) = "." ++ x.
Proof.
  intros Hx. unfold filepath.Ext.
  destruct (extFrom_app p ("." ++ x) "") as [acc' ->].
  change ("." ++ x) with (String "." x). cbn [filepath.extFrom].
  change (Ascii.eqb "." "/") with false. change (Ascii.eqb "." ".") with true.
  cbv iota. now apply extFrom_plain.
Qed.

(** X13. The file stage chooses the decoder by the text after the last
    dot of the file name, in lowercase, whatever the directories before
    it: a first file named [p.x] that opens is decoded as YAML for
    [.yaml] and [.yml], JSON for [.json], TOML for [.toml], in any letter
    case; a decoding error is returned wrapped, with the record as the
    decoder left it; any other extension is returned as an unsupported
    format, after the file was opened, and the record is not touched. *)
Theorem file_stage_picks_decoder_by_extension (lib : GoLib) (w : World) (l : Loader)
    (p x : string) (rest : list string) (f : string) (dst : Target) (s : Store) :
  plainExt x = true ->
  Files (config l) = (p ++ "." ++ x) :: rest ->
  Open w (p ++ "." ++ x) = Val f ->
  loadFromFile lib w l dst s
  = match formatOf (strings.ToLower lib ("." ++ x)) with
    | Some format =>
        match decode lib format f dst s with
        | (s', Some err) => (s', Return (Some (FileParsingError err)))
        | (s', None) => (s', Return None)
        end
    | None => (s, Return (Some (UnsupportedFormat (strings.ToLower lib ("." ++ x)))))
    end.
Proof.
  intros Hx Hf Ho. unfold loadFromFile. rewrite Hf. cbn [rangeLoop].
  rewrite Ho, (Ext_app p x Hx).
  destruct (formatOf _); [|reflexivity].
  destruct (decode lib _ f dst s) as [s' [err|]]; reflexivity.
Qed.

(** The extensions the stage knows, in any letter case. *)
Example formats_by_extension lib :
  map (fun e => formatOf (strings.ToLower lib e))
    [".yaml"; ".YML"; ".Json"; ".TOML"; ".txt"; ".yaml2"]
  = [Some YAML; Some YAML; Some JSON; Some TOML; None; None].
Proof. reflexivity. Qed.

Lemma file_stage_picks_decoder_by_extension_witness :
  loadFromFile sampleLib (sampleWorld [("/etc/app.d/conf.JSON", "{}")] [] [])
    {| config := jsonInEtc; fields := [] |} (Pointer MyConfig) ∅
  = (∅, Return None).
Proof.
  apply (file_stage_picks_decoder_by_extension sampleLib
           (sampleWorld [("/etc/app.d/conf.JSON", "{}")] [] [])
           {| config := jsonInEtc; fields := [] |}
           "/etc/app.d/conf" "JSON" [] "{}" (Pointer MyConfig) ∅);
    reflexivity.
Defined.

(** ** The integer setters on any string *)

Lemma digitVal_letter c d :
  Bytes.isDigit c = false -> strconv.digitVal c = Some d -> 10 <= d.
Proof.
  unfold strconv.digitVal. intros Hc. rewrite Hc.
  destruct (Bytes.isLower (Bytes.toLower c)) eqn:El; [|discriminate].
  intros H. inversion H; subst.
  unfold Bytes.isLower, Bytes.between in El. apply andb_prop in El as [H1 _].
  apply Z.leb_le in H1. change (Bytes.val "a") with 97 in *. lia.
Qed.

(** The digit loop refuses a string that is not made of digits. *)
Lemma parseDigits_refuses s :
  forall n, 0 <= n <= strconv.maxUint64 -> digitsValue s n = None ->
            exists why, strconv.parseDigits s 10 (strconv.maxUint64 / 10 + 1)
                          (2 ^ 64 - 1) n = inl why.
Proof.
  change strconv.maxUint64 with 18446744073709551615.
  change (18446744073709551615 / 10 + 1) with 1844674407370955162.
  change (2 ^ 64 - 1) with 18446744073709551615.
  induction s as [|c s IH]; intros n Hn H; simpl in H; [discriminate|].
  cbn [strconv.parseDigits].
  destruct (Bytes.isDigit c) eqn:Ec.
  - pose proof (isDigit_val c Ec) as Hd. rewrite (digitVal_digit c Ec).
    set (d := Bytes.val c - Bytes.val "0") in *.
    destruct (Z.leb_spec 10 d); [lia|].
    destruct (Z.leb_spec 1844674407370955162 n); [eauto|].
    change (2 ^ 64) with 18446744073709551616.
    rewrite (Z.mod_small (n * 10)) by lia.
    destruct (Z.le_gt_cases (n * 10 + d) 18446744073709551615) as [Hfit|Hover].
    + rewrite (Z.mod_small (n * 10 + d)) by lia.
      destruct (Z.ltb_spec (n * 10 + d) (n * 10)); [lia|].
      destruct (Z.ltb_spec 18446744073709551615 (n * 10 + d)); [lia|].
      cbn [orb]. apply IH; [lia | exact H].
    + assert (Hm : (n * 10 + d) mod 18446744073709551616
                   = n * 10 + d - 18446744073709551616).
      { replace (n * 10 + d)
          with (n * 10 + d - 18446744073709551616 + 1 * 18446744073709551616) at 1 by lia.
        rewrite Z.mod_add by lia. apply Z.mod_small. lia. }
      rewrite Hm.
      destruct (Z.ltb_spec (n * 10 + d - 18446744073709551616) (n * 10)); [|lia].
      cbn [orb]. eauto.
  - destruct (strconv.digitVal c) as [d|] eqn:Ed; [|eauto].
    apply (digitVal_letter c d Ec) in Ed.
    destruct (Z.leb_spec 10 d); [eauto | lia].
Qed.

Lemma parseUint_refuses s :
  unsignedValue s = None -> exists why, strconv.parseUint s 10 64 = inl why.
Proof.
  unfold unsignedValue, strconv.parseUint.
  destruct (String.eqb s ""); [eauto|]. intros H.
  change (64 =? 0) with false. cbv iota.
  apply parseDigits_refuses; [|exact H].
  change strconv.maxUint64 with 18446744073709551615. lia.
Qed.

Lemma ParseUint_refuses s :
  unsignedValue s = None ->
  exists why, strconv.ParseUint s 10 64 = Err (NumError "ParseUint" s why).
Proof.
  intros H. unfold strconv.ParseUint.
  destruct (parseUint_refuses s H) as [why ->]. eauto.
Qed.

Lemma ParseInt_refuses s :
  signedValue s = None ->
  exists why, strconv.ParseInt s 10 64 = Err (NumError "ParseInt" s why).
Proof.
  unfold signedValue, strconv.ParseInt. destruct s as [|c rest]; [eauto|].
  assert (Hcase : forall str,
             unsignedValue str = None ->
             exists why,
               match strconv.parseUint str 10 64 with
               | inl ErrSyntax => Err (NumError "ParseInt" (String c rest) ErrSyntax)
               | inl ErrRange => Err (NumError "ParseInt" (String c rest) ErrRange)
               | inr un =>
                   let bitSize := if 64 =? 0 then strconv.IntSize else 64 in
                   let cutoff := 2 ^ (bitSize - 1) in
                   if negb (Ascii.eqb c "-") && (cutoff <=? un)
                   then Err (NumError "ParseInt" (String c rest) ErrRange)
                   else if Ascii.eqb c "-" && (cutoff <? un)
                        then Err (NumError "ParseInt" (String c rest) ErrRange)
                        else Val (if Ascii.eqb c "-" then - un else un)
               end = Err (NumError "ParseInt" (String c rest) why)).
  { intros str Hs. destruct (parseUint_refuses str Hs) as [[|] ->]; eauto. }
  destruct (Ascii.eqb c "-") eqn:Em.
  - rewrite orb_true_r. intros H. apply Hcase.
    destruct (unsignedValue rest); [discriminate | reflexivity].
  - rewrite orb_false_r. destruct (Ascii.eqb c "+"); intros H; now apply Hcase.
Qed.

(** A signed integer leaf other than a [time.Duration]: the setter is the
    parser for 64 bits followed by the store at the width of the leaf. *)
Lemma setFieldData_signed lib l fd raw bits s :
  wellTyped fd -> reflect.intBits (kindOf fd) = Some bits ->
  reflect.Typ (Field fd) <> reflect.Duration ->
  setFieldData lib l fd raw s
  = match strconv.ParseInt raw 10 64 with
    | Val n => (<[locOf fd := reflect.VInt (Wrap.int bits n)]> s, Return None)
    | Err err => (s, Return (Some err))
    end.
Proof.
  intros Hw Hb Hdur. unfold setFieldData, kindOf, locOf, reflect.ValueKind in *. rewrite Hw.
  destruct (reflect.Typ (Field fd)) as [id k | id fs] eqn:Ht; [|discriminate].
  cbn [reflect.KindOf] in *.
  assert (Hset : setInt fd raw s
                 = match strconv.ParseInt raw 10 64 with
                   | Val n => (<[reflect.ptr (Value fd) := reflect.VInt (Wrap.int bits n)]> s,
                               Return None)
                   | Err err => (s, Return (Some err))
                   end).
  { unfold setInt. destruct (strconv.ParseInt raw 10 64); [|reflexivity].
    unfold reflect.SetInt, reflect.ValueKind. rewrite Hw, Ht. cbn [reflect.KindOf].
    rewrite Hb. reflexivity. }
  destruct k; try discriminate Hb; cbn [settersByKind]; try exact Hset.
  unfold setInt64. rewrite Ht.
  destruct (reflect.Type_eqb _ reflect.Duration) eqn:E; [|exact Hset].
  apply Type_eqb_Duration in E. contradiction.
Qed.

(** An unsigned integer leaf. *)
Lemma setFieldData_unsigned lib l fd raw bits s :
  wellTyped fd -> reflect.uintBits (kindOf fd) = Some bits ->
  kindOf fd <> reflect.Uintptr ->
  setFieldData lib l fd raw s
  = match strconv.ParseUint raw 10 64 with
    | Val n => (<[locOf fd := reflect.VUint (Wrap.uint bits n)]> s, Return None)
    | Err err => (s, Return (Some err))
    end.
Proof.
  intros Hw Hb Hk. unfold setFieldData, kindOf, locOf, reflect.ValueKind in *. rewrite Hw.
  destruct (reflect.Typ (Field fd)) as [id k | id fs] eqn:Ht; [|discriminate].
  cbn [reflect.KindOf] in *.
  destruct k; try discriminate Hb; try congruence; cbn [settersByKind];
    unfold setUint; (destruct (strconv.ParseUint raw 10 64); [|reflexivity]);
    unfold reflect.SetUint, reflect.ValueKind; rewrite Hw, Ht; cbn [reflect.KindOf];
    rewrite Hb; reflexivity.
Qed.

(** X14. What a signed integer leaf (other than a [time.Duration]) keeps
    of any raw string: a string that is not an optional sign followed by
    decimal digits is refused with the parser's error; a numeral beyond
    64 bits is refused with the range error; a numeral within 64 bits is
    stored reduced to the width of the leaf without an error, which is
    the number itself exactly when it fits the width. A refusal leaves
    the record as it was. *)
Theorem signed_leaf_from_any_string (lib : GoLib) (l : Loader) (fd : fieldData)
    (raw : string) (bits : Z) (s : Store) :
  wellTyped fd -> reflect.intBits (kindOf fd) = Some bits ->
  reflect.Typ (Field fd) <> reflect.Duration ->
  match signedValue raw with
  | None =>
      exists why,
        setFieldData lib l fd raw s = (s, Return (Some (NumError "ParseInt" raw why)))
  | Some z =>
      if (- 2 ^ 63 <=? z) && (z <? 2 ^ 63)
      then setFieldData lib l fd raw s
           = (<[locOf fd := reflect.VInt (Wrap.int bits z)]> s, Return None)
           /\ (Wrap.int bits z = z <-> - 2 ^ (bits - 1) <= z < 2 ^ (bits - 1))
      else setFieldData lib l fd raw s
           = (s, Return (Some (NumError "ParseInt" raw ErrRange)))
  end.
Proof.
  intros Hw Hb Hdur. rewrite (setFieldData_signed lib l fd raw bits s Hw Hb Hdur).
  destruct (signedValue raw) as [z|] eqn:Ev.
  - rewrite (ParseInt_value raw z Ev).
    destruct ((- 2 ^ 63 <=? z) && (z <? 2 ^ 63)); [|reflexivity].
    split; [reflexivity|].
    assert (Hbits : 0 < bits).
    { unfold kindOf in Hb. destruct (reflect.KindOf _); inversion Hb;
        unfold strconv.IntSize; lia. }
    split; [|now apply Wrap_int_id].
    intros Hz. rewrite <- Hz. unfold Wrap.int.
    assert (Hp : 2 ^ bits = 2 * 2 ^ (bits - 1)).
    { rewrite <- Z.pow_succ_r by lia. f_equal. lia. }
    assert (0 < 2 ^ (bits - 1)) by (apply Z.pow_pos_nonneg; lia).
    pose proof (Z.mod_pos_bound z (2 ^ bits) ltac:(lia)) as Hm.
    destruct (Z.ltb_spec (z mod 2 ^ bits) (2 ^ (bits - 1))); lia.
  - destruct (ParseInt_refuses raw Ev) as [why ->]. eauto.
Qed.

Lemma signed_leaf_from_any_string_witness :
  setFieldData sampleLib (NewLoader DefaultConfig)
    (leafAt 0 "N" reflect.int16 []) "-70000" ∅
  = (<[[0%nat] := reflect.VInt (Wrap.int 16 (-70000))]> ∅, Return None)
  /\ (Wrap.int 16 (-70000) = -70000 <-> - 2 ^ (16 - 1) <= -70000 < 2 ^ (16 - 1)).
Proof.
  exact (signed_leaf_from_any_string sampleLib (NewLoader DefaultConfig)
           (leafAt 0 "N" reflect.int16 []) "-70000" 16 ∅ eq_refl eq_refl
           ltac:(discriminate)).
Defined.

(** X15. What an unsigned integer leaf keeps of any raw string: a string
    that is not made of decimal digits only (a sign is not accepted) is
    refused with the parser's error; a numeral of 2^64 or more is refused
    with the range error; a smaller numeral is stored reduced to the
    width of the leaf without an error, which is the number itself
    exactly when it fits the width. A refusal leaves the record as it
    was. *)
Theorem unsigned_leaf_from_any_string (lib : GoLib) (l : Loader) (fd : fieldData)
    (raw : string) (bits : Z) (s : Store) :
  wellTyped fd -> reflect.uintBits (kindOf fd) = Some bits ->
  kindOf fd <> reflect.Uintptr ->
  match unsignedValue raw with
  | None =>
      exists why,
        setFieldData lib l fd raw s = (s, Return (Some (NumError "ParseUint" raw why)))
  | Some z =>
      if z <? 2 ^ 64
      then setFieldData lib l fd raw s
           = (<[locOf fd := reflect.VUint (Wrap.uint bits z)]> s, Return None)
           /\ (Wrap.uint bits z = z <-> z < 2 ^ bits)
      else setFieldData lib l fd raw s
           = (s, Return (Some (NumError "ParseUint" raw ErrRange)))
  end.
Proof.
  intros Hw Hb Hk. rewrite (setFieldData_unsigned lib l fd raw bits s Hw Hb Hk).
  destruct (unsignedValue raw) as [z|] eqn:Ev.
  - rewrite (ParseUint_value raw z Ev). pose proof (unsignedValue_nonneg raw z Ev) as Hz.
    destruct (z <? 2 ^ 64); [|reflexivity].
    split; [reflexivity|].
    assert (Hbits : 0 < bits).
    { unfold kindOf in Hb. destruct (reflect.KindOf _); inversion Hb;
        unfold strconv.IntSize; lia. }
    assert (0 < 2 ^ bits) by (apply Z.pow_pos_nonneg; lia).
    unfold Wrap.uint. split.
    + intros Hm. rewrite <- Hm. apply Z.mod_pos_bound. lia.
    + intros Hlt. apply Z.mod_small. lia.
  - destruct (ParseUint_refuses raw Ev) as [why ->]. eauto.
Qed.

Lemma unsigned_leaf_from_any_string_witness :
  exists why,
    setFieldData sampleLib (NewLoader DefaultConfig)
      (leafAt 0 "N" reflect.uint16 []) "-1" ∅
    = (∅, Return (Some (NumError "ParseUint" "-1" why))).
Proof.
  exact (unsigned_leaf_from_any_string sampleLib (NewLoader DefaultConfig)
           (leafAt 0 "N" reflect.uint16 []) "-1" 16 ∅ eq_refl eq_refl
           ltac:(discriminate)).
Defined.

(** ** The file stage among the others *)

(** X3. The file stage sits between the defaults and the environment:
    when the defaults stage (if enabled) succeeds and the file stage then
    succeeds on the record the defaults left, and every raw string of the
    enabled environment and flag stages is accepted, [Load] succeeds and
    each leaf holds the coerced flag, else the coerced environment
    variable, else what the file stage left there; outside the leaves the
    record is as the file stage left it. *)
Theorem Load_environment_and_flags_override_the_file (lib : GoLib) (w : World)
    (l : Loader) (id : string) (fs : list reflect.StructField) (s s_d s_f : Store) :
  let fds := getFieldsHelper (reflect.TStruct id fs) [] None in
  let l' := {| config := config l; fields := fds |} in
  UseFile (config l) = true ->
  (if UseDefaults (config l) then loadDefaults lib l' s else (s, Return None))
  = (s_d, Return None) ->
  loadFromFile lib w l' (Pointer (reflect.TStruct id fs)) s_d = (s_f, Return None) ->
  acceptedSource lib (enabledSource lib w l' Environment) fds ->
  acceptedSource lib (enabledSource lib w l' Flags) fds ->
  exists s',
    Load lib w l (Pointer (reflect.TStruct id fs)) s = (l', (s', Return None))
    /\ (forall fd, fd ∈ fds ->
          s' !! locOf fd
          = match overriding lib w l' fd with
            | Some raw => coerce lib (reflect.Typ (Field fd)) raw
            | None => s_f !! locOf fd
            end)
    /\ (forall p, p ∉ map locOf fds -> s' !! p = s_f !! p).
Proof.
  intros fds l' Hfile Hd Hf Hoke Hokf.
  assert (Hw : Forall wellTyped (fields l')) by apply getFieldsHelper_wellTyped.
  exists (withSource lib (enabledSource lib w l' Flags) fds
            (withSource lib (enabledSource lib w l' Environment) fds s_f)).
  split; [|split].
  - unfold Load. cbn [getFields ValueOfElem reflect.typ reflect.ptr]. fold fds. fold l'.
    f_equal. change (config l') with (config l) in *.
    rewrite Hd. cbn [andThen]. rewrite Hfile, Hf. cbn [andThen].
    change (if UseEnv (config l) then loadEnvironment lib w l' s_f else (s_f, Return None))
      with (if enabled (config l') Environment
            then runStage lib w l' (Pointer (reflect.TStruct id fs)) Environment s_f
            else (s_f, Return None)).
    rewrite stage_step; [|discriminate | exact Hw | exact Hoke]. cbn [andThen].
    match goal with
    | |- context [if UseFlag (config l) then loadFlags lib w l' ?s0 else _] =>
        change (if UseFlag (config l) then loadFlags lib w l' s0 else (s0, Return None))
          with (if enabled (config l') Flags
                then runStage lib w l' (Pointer (reflect.TStruct id fs)) Flags s0
                else (s0, Return None))
    end.
    rewrite stage_step; [|discriminate | exact Hw | exact Hokf]. reflexivity.
  - intros fd Hfd. rewrite !withSource_leaf by (try apply getFieldsHelper_NoDup; assumption).
    unfold overriding, coerced.
    destruct (enabledSource lib w l' Flags fd) as [raw|] eqn:Ef.
    { destruct (Hokf fd raw Hfd Ef) as [v Hv]. now rewrite Hv. }
    destruct (enabledSource lib w l' Environment fd) as [raw|] eqn:Ee; [|reflexivity].
    destruct (Hoke fd raw Hfd Ee) as [v Hv]. now rewrite Hv.
  - intros p Hp. now rewrite !withSource_other.
Qed.

Lemma Load_environment_and_flags_override_the_file_witness :
  let w := sampleWorld [("file.json", "{ port: 2222 }")]
             [("APP_AUTH_USER", "env-user")] [] in
  let l' := {| config := config (NewLoader readmeConfig); fields := MyConfigFields |} in
  let s_f := fst (loadFromFile port2222Lib w l' (Pointer MyConfig)
                    (fst (loadDefaults port2222Lib l' ∅))) in
  exists s',
    Load port2222Lib w (NewLoader readmeConfig) (Pointer MyConfig) ∅
    = (l', (s', Return None))
    /\ (forall fd, fd ∈ MyConfigFields ->
          s' !! locOf fd
          = match overriding port2222Lib w l' fd with
            | Some raw => coerce port2222Lib (reflect.Typ (Field fd)) raw
            | None => s_f !! locOf fd
            end)
    /\ (forall p, p ∉ map locOf MyConfigFields -> s' !! p = s_f !! p).
Proof.
  intros w l' s_f.
  apply (Load_environment_and_flags_override_the_file port2222Lib w
           (NewLoader readmeConfig) "MyConfig" _ ∅
           (fst (loadDefaults port2222Lib l' ∅)) s_f).
  - reflexivity.
  - vm_compute. reflexivity.
  - vm_compute. reflexivity.
  - accept_each.
  - accept_each.
Defined.

(** The README's record with port 1111 by default and 2222 in the file,
    and the user of [Auth] in the environment: the file wins over the
    default, the environment over both. *)
Example readme_file_precedence :
  let w := sampleWorld [("file.json", "{ port: 2222 }")]
             [("APP_AUTH_USER", "env-user")] [] in
  fst (snd (Load port2222Lib w (NewLoader readmeConfig) (Pointer MyConfig) ∅))
  = <[[2%nat; 0%nat] := reflect.VString "base"]>
      (<[[1%nat; 1%nat] := reflect.VString "def-pass"]>
         (<[[1%nat; 0%nat] := reflect.VString "env-user"]>
            (<[[0%nat] := reflect.VInt 2222]> ∅))).
Proof. vm_compute. reflexivity. Qed.

(** ** Durations without a unit *)

Lemma digitsValue_all s : forall n z, digitsValue s n = Some z -> Bytes.all Bytes.isDigit s = true.
Proof.
  induction s as [|c s IH]; intros n z H; [reflexivity|]. simpl in H. cbn [Bytes.all].
  destruct (Bytes.isDigit c); [|discriminate]. cbn [andb]. now apply IH in H.
Qed.

Lemma leadingInt_digits s :
  Bytes.all Bytes.isDigit s = true ->
  forall x, time.leadingInt s x = None \/ exists v, time.leadingInt s x = Some (v, "").
Proof.
  induction s as [|c s IH]; intros H x; [right; eexists; reflexivity|].
  cbn [Bytes.all] in H. apply andb_prop in H as [Hc Hs].
  cbn [time.leadingInt]. rewrite Hc. cbn [negb].
  destruct (2 ^ 63 / 10 <? x); [now left|].
  destruct (2 ^ 63 <? _); [now left|]. now apply IH.
Qed.

(** One or more digits and nothing else are no term of a duration. *)
Lemma parseTerm_digits lib orig s :
  s <> "" -> Bytes.all Bytes.isDigit s = true ->
  exists why, time.parseTerm lib orig s = Err (DurationError why orig).
Proof.
  intros Hne Hall. unfold time.parseTerm.
  destruct s as [|c s']; [congruence|].
  assert (Hc : Bytes.isDigit c = true).
  { cbn [Bytes.all] in Hall. now apply andb_prop in Hall as [Hc _]. }
  cbn [time.startsNumber]. rewrite Hc, orb_true_r. cbn [negb].
  destruct (leadingInt_digits (String c s') Hall 0) as [-> | [v ->]]; [eauto|].
  cbn. eauto.
Qed.

Lemma ParseDuration_sign lib c rest :
  time.ParseDuration lib (String c rest)
  = let orig := String c rest in
    let '(neg, s) :=
      if Ascii.eqb c "-" then (true, rest)
      else if Ascii.eqb c "+" then (false, rest)
      else (false, orig) in
    if String.eqb s "0" then Val 0
    else if String.eqb s "" then Err (DurationError InvalidDuration orig)
    else
      match time.parseTerms lib (String.length s) orig s 0 with
      | Err e => Err e
      | Val d =>
          if neg then Val (Wrap.int 64 (- Wrap.int 64 d))
          else if 2 ^ 63 - 1 <? d then Err (DurationError InvalidDuration orig)
          else Val d
      end.
Proof.
  unfold time.ParseDuration.
  destruct c as [b0 b1 b2 b3 b4 b5 b6 b7].
  destruct b0, b1, b2, b3, b4, b5, b6, b7; reflexivity.
Qed.

(** A string of digits other than ["0"] is no duration. *)
Lemma parseDuration_digits lib orig s neg :
  unsignedValue s <> None -> s <> "0" ->
  exists why,
    (if String.eqb s "0" then Val 0
     else if String.eqb s "" then Err (DurationError InvalidDuration orig)
     else
       match time.parseTerms lib (String.length s) orig s 0 with
       | Err e => Err e
       | Val d =>
           if neg : bool then Val (Wrap.int 64 (- Wrap.int 64 d))
           else if 2 ^ 63 - 1 <? d then Err (DurationError InvalidDuration orig)
           else Val d
       end) = Err (DurationError why orig).
Proof.
  intros Hv H0. unfold unsignedValue in Hv.
  destruct (String.eqb_spec s "0"); [congruence|].
  destruct (String.eqb_spec s "") as [|Hne]; [eauto|].
  destruct (digitsValue s 0) as [z|] eqn:Ed; [|congruence].
  apply digitsValue_all in Ed.
  destruct (parseTerm_digits lib orig s Hne Ed) as [why Hterm].
  destruct s as [|c s']; [congruence|].
  cbn [String.length time.parseTerms]. rewrite Hterm. eauto.
Qed.

(** X17. A [time.Duration] leaf refuses a number without a unit: a raw
    string made of an optional sign and decimal digits, other than ["0"],
    ["+0"] and ["-0"], is refused by the duration parser and the record
    is left as it was (so [default:"30"] on a duration makes the defaults
    stage fail). *)
Theorem duration_leaf_refuses_bare_numbers (lib : GoLib) (l : Loader)
    (fd : fieldData) (raw : string) (s : Store) :
  wellTyped fd -> reflect.Typ (Field fd) = reflect.Duration ->
  signedValue raw <> None ->
  raw <> "0" -> raw <> "+0" -> raw <> "-0" ->
  exists why,
    setFieldData lib l fd raw s = (s, Return (Some (DurationError why raw))).
Proof.
  intros Hw Ht Hv H0 Hp Hm.
  rewrite (setInt64_Duration lib l fd raw s Ht Hw).
  assert (Hd : exists why, time.ParseDuration lib raw = Err (DurationError why raw)).
  { destruct raw as [|c rest]; [now contradiction Hv|].
    rewrite ParseDuration_sign. cbv zeta. unfold signedValue in Hv.
    destruct (Ascii.eqb_spec c "-") as [->|_].
    - apply (parseDuration_digits lib (String "-" rest) rest true).
      + destruct (unsignedValue rest); [discriminate | now contradiction Hv].
      + intros ->. now apply Hm.
    - destruct (Ascii.eqb_spec c "+") as [->|_].
      + apply (parseDuration_digits lib (String "+" rest) rest false); [exact Hv|].
        intros ->. now apply Hp.
      + apply (parseDuration_digits lib (String c rest) (String c rest) false);
          [exact Hv | exact H0]. }
  destruct Hd as [why ->]. eauto.
Qed.

Lemma duration_leaf_refuses_bare_numbers_witness :
  exists why,
    setFieldData sampleLib (NewLoader DefaultConfig)
      (leafAt 0 "Timeout" reflect.Duration [("default", "30")]) "30" ∅
    = (∅, Return (Some (DurationError why "30"))).
Proof.
  apply (duration_leaf_refuses_bare_numbers sampleLib (NewLoader DefaultConfig)
           (leafAt 0 "Timeout" reflect.Duration [("default", "30")]) "30" ∅
           eq_refl eq_refl); discriminate.
Defined.
